(** * The contact book of [task.py]: fields, records, the address book

    A shallow embedding of the classes [Field], [Name], [Phone], [Birthday],
    [Record] and [AddressBook] of [task.py], together with the parts of the
    Python runtime they call ([str.isdigit], [datetime.strptime],
    [datetime.replace], comparison and subtraction of datetimes, [dict],
    [list.remove]), followed by the properties proved about them.

    Python values are modelled as follows.
    - [str] is a list of Unicode code points ([N]).
    - An exception is a value of [exn]; code that may raise returns a
      [result]; a method that reads or assigns attributes of [self] is a
      computation [M S A] over the state [S] of [self], in which an exception
      leaves the state as it was when it was raised.
    - [dict] is an association list in insertion order with pairwise distinct
      keys ([Dict.dict_wf]).
    - [datetime] is the naive datetime of the [datetime] module; the clock
      reading [datetime.now()] is an argument of the one method that takes
      it. *)

From Stdlib Require Import ZArith NArith List String Ascii Bool Lia.
From Stdlib Require Import Permutation DecimalString.
Import ListNotations.

Local Open Scope Z_scope.

(* ================================================================= *)
(** ** Python strings, exceptions, results *)

Abbreviation codepoint := N (only parsing).
Abbreviation str := (list N) (only parsing).

(** An ASCII literal as a Python [str]. *)
Definition u (s : string) : str := map N_of_ascii (list_ascii_of_string s).

Fixpoint str_eqb (a b : str) : bool :=
  match a, b with
  | [], [] => true
  | x :: a', y :: b' => N.eqb x y && str_eqb a' b'
  | _, _ => false
  end.

Definition len {A} (l : list A) : Z := Z.of_nat (List.length l).

(** The exception classes of the modelled code. *)
Inductive exn : Type :=
| ValueError (msg : string)
| KeyError (key : str).

Inductive result (A : Type) : Type :=
| Ok (a : A)
| Raise (e : exn).
Arguments Ok {A} a.
Arguments Raise {A} e.

Definition rbind {A B} (r : result A) (k : A -> result B) : result B :=
  match r with
  | Ok a => k a
  | Raise e => Raise e
  end.

(** Computations on the attributes of an object of state [S]. *)
Definition M (S A : Type) : Type := S -> result A * S.

Definition ret {S A} (a : A) : M S A := fun s => (Ok a, s).
Definition bind {S A B} (m : M S A) (k : A -> M S B) : M S B :=
  fun s => match m s with
           | (Ok a, s') => k a s'
           | (Raise e, s') => (Raise e, s')
           end.
Definition get {S} : M S S := fun s => (Ok s, s).
Definition put {S} (s : S) : M S unit := fun _ => (Ok tt, s).
Definition lift {S A} (r : result A) : M S A := fun s => (r, s).

Declare Scope py_scope.
Delimit Scope py_scope with py.
Notation "x <- m ;; k" := (bind m (fun x => k))
  (at level 61, m at next level, right associativity) : py_scope.
Notation "m ;; k" := (bind m (fun _ => k))
  (at level 61, right associativity) : py_scope.
Notation "x <-r m ;; k" := (rbind m (fun x => k))
  (at level 61, m at next level, right associativity) : py_scope.

(* ================================================================= *)
(** ** Unicode digits (CPython 3.11, Unicode 14.0) *)

Module Unicode.

(** The code points of the zero of every run of ten decimal digits
    (general category Nd); the digit of value [i] is at [zero + i]. *)
Definition decimal_zeros : list N :=
  [0x30; 0x660; 0x6F0; 0x7C0; 0x966; 0x9E6; 0xA66; 0xAE6; 0xB66; 0xBE6;
   0xC66; 0xCE6; 0xD66; 0xDE6; 0xE50; 0xED0; 0xF20; 0x1040; 0x1090;
   0x17E0; 0x1810; 0x1946; 0x19D0; 0x1A80; 0x1A90; 0x1B50; 0x1BB0;
   0x1C40; 0x1C50; 0xA620; 0xA8D0; 0xA900; 0xA9D0; 0xA9F0; 0xAA50;
   0xABF0; 0xFF10; 0x104A0; 0x10D30; 0x11066; 0x110F0; 0x11136; 0x111D0;
   0x112F0; 0x11450; 0x114D0; 0x11650; 0x116C0; 0x11730; 0x118E0;
   0x11950; 0x11C50; 0x11D50; 0x11DA0; 0x16A60; 0x16AC0; 0x16B50;
   0x1D7CE; 0x1D7D8; 0x1D7E2; 0x1D7EC; 0x1D7F6; 0x1E140; 0x1E2F0;
   0x1E950; 0x1FBF0]%N.

(** The code points with Numeric_Type=Digit that are not decimal:
    superscripts, subscripts, circled and parenthesised digits, ... *)
Definition other_digit_ranges : list (N * N) :=
  [(0xB2, 0xB3); (0xB9, 0xB9); (0x1369, 0x1371); (0x19DA, 0x19DA);
   (0x2070, 0x2070); (0x2074, 0x2079); (0x2080, 0x2089); (0x2460, 0x2468);
   (0x2474, 0x247C); (0x2488, 0x2490); (0x24EA, 0x24EA); (0x24F5, 0x24FD);
   (0x24FF, 0x24FF); (0x2776, 0x277E); (0x2780, 0x2788); (0x278A, 0x2792);
   (0x10A40, 0x10A43); (0x10E60, 0x10E68); (0x11052, 0x1105A);
   (0x1F100, 0x1F10A)]%N.

(** [Py_UNICODE_TODECIMAL]: the value of a decimal digit. *)
Definition decimal_value (c : codepoint) : option Z :=
  match find (fun z => (z <=? c) && (c <? z + 10))%N decimal_zeros with
  | Some z => Some (Z.of_N (c - z))
  | None => None
  end.

(** [Py_UNICODE_ISDECIMAL]; also what [\d] of [re] matches in a [str]. *)
Definition isdecimal_cp (c : codepoint) : bool :=
  match decimal_value c with Some _ => true | None => false end.

(** [Py_UNICODE_ISDIGIT]. *)
Definition isdigit_cp (c : codepoint) : bool :=
  isdecimal_cp c
  || existsb (fun r => (fst r <=? c) && (c <=? snd r))%N other_digit_ranges.

(** [str.isdigit()]: every character is a digit and there is at least one. *)
Definition isdigit (s : str) : bool :=
  match s with
  | [] => false
  | _ => forallb isdigit_cp s
  end.

(** The ten characters [0] ... [9]. *)
Definition is_ascii_digit (c : codepoint) : bool :=
  ((48 <=? c) && (c <=? 57))%N.

End Unicode.

(* ================================================================= *)
(** ** The [datetime] module: naive datetimes *)

Module Datetime.

Record datetime : Type := mk_datetime {
  year : Z; month : Z; day : Z;
  hour : Z; minute : Z; second : Z; microsecond : Z
}.

Definition MINYEAR : Z := 1.
Definition MAXYEAR : Z := 9999.

(** [_is_leap]: [year % 4 == 0 and (year % 100 != 0 or year % 400 == 0)]. *)
Definition is_leap (y : Z) : bool :=
  (y mod 4 =? 0) && (negb (y mod 100 =? 0) || (y mod 400 =? 0)).

(** The table [_DAYS_IN_MONTH]. *)
Definition DAYS_IN_MONTH (m : Z) : Z :=
  match m with
  | 1 => 31 | 2 => 28 | 3 => 31 | 4 => 30 | 5 => 31 | 6 => 30
  | 7 => 31 | 8 => 31 | 9 => 30 | 10 => 31 | 11 => 30 | 12 => 31
  | _ => -1
  end.

Definition days_in_month (y m : Z) : Z :=
  if (m =? 2) && is_leap y then 29 else DAYS_IN_MONTH m.

(** The table [_DAYS_BEFORE_MONTH]. *)
Definition DAYS_BEFORE_MONTH (m : Z) : Z :=
  match m with
  | 1 => 0 | 2 => 31 | 3 => 59 | 4 => 90 | 5 => 120 | 6 => 151
  | 7 => 181 | 8 => 212 | 9 => 243 | 10 => 273 | 11 => 304 | 12 => 334
  | _ => -1
  end.

Definition days_before_year (y : Z) : Z :=
  let y := y - 1 in y * 365 + y / 4 - y / 100 + y / 400.

Definition days_before_month (y m : Z) : Z :=
  DAYS_BEFORE_MONTH m + (if (2 <? m) && is_leap y then 1 else 0).

(** [_ymd2ord]: the ordinal of a date, 01.01.0001 being day 1. *)
Definition ymd2ord (y m d : Z) : Z :=
  days_before_year y + days_before_month y m + d.

Definition toordinal (t : datetime) : Z := ymd2ord (year t) (month t) (day t).

Definition between (lo x hi : Z) : bool := (lo <=? x) && (x <=? hi).

(** Unpadded decimal numeral, as [%i] prints it. *)
Definition show (n : Z) : string := NilZero.string_of_int (Z.to_int n).

(** The constructor [datetime(year, month, day, hour, minute, second,
    microsecond)]: the date fields are checked first, then the time
    fields. *)
Definition new (y m d hh mm ss us : Z) : result datetime :=
  if negb (between MINYEAR y MAXYEAR) then
    Raise (ValueError ("year " ++ show y ++ " is out of range"))
  else if negb (between 1 m 12) then
    Raise (ValueError "month must be in 1..12")
  else if negb (between 1 d (days_in_month y m)) then
    Raise (ValueError "day is out of range for month")
  else if negb (between 0 hh 23) then
    Raise (ValueError "hour must be in 0..23")
  else if negb (between 0 mm 59) then
    Raise (ValueError "minute must be in 0..59")
  else if negb (between 0 ss 59) then
    Raise (ValueError "second must be in 0..59")
  else if negb (between 0 us 999999) then
    Raise (ValueError "microsecond must be in 0..999999")
  else Ok (mk_datetime y m d hh mm ss us).

(** What every constructed datetime satisfies. *)
Definition valid (t : datetime) : bool :=
  between MINYEAR (year t) MAXYEAR && between 1 (month t) 12
  && between 1 (day t) (days_in_month (year t) (month t))
  && between 0 (hour t) 23 && between 0 (minute t) 59
  && between 0 (second t) 59 && between 0 (microsecond t) 999999.

(** [t.replace(year=y)]: a new datetime through the constructor. *)
Definition replace_year (t : datetime) (y : Z) : result datetime :=
  new y (month t) (day t) (hour t) (minute t) (second t) (microsecond t).

(** Comparison of naive datetimes: lexicographic on the seven fields. *)
Fixpoint cmp_fields (a b : list Z) : comparison :=
  match a, b with
  | x :: a', y :: b' =>
      match x ?= y with
      | Eq => cmp_fields a' b'
      | c => c
      end
  | _, _ => Eq
  end.

Definition fields (t : datetime) : list Z :=
  [year t; month t; day t; hour t; minute t; second t; microsecond t].

Definition ltb (a b : datetime) : bool :=
  match cmp_fields (fields a) (fields b) with Lt => true | _ => false end.

(** [timedelta]: normalised so that [0 <= seconds < 86400] and
    [0 <= microseconds < 1000000]; [days] carries the sign. *)
Record timedelta : Type := mk_timedelta {
  days : Z; seconds : Z; microseconds : Z
}.

Definition timedelta_new (d s us : Z) : timedelta :=
  let s := s + us / 1000000 in
  let us := us mod 1000000 in
  let d := d + s / 86400 in
  let s := s mod 86400 in
  mk_timedelta d s us.

(** [a - b] for naive datetimes. *)
Definition sub (a b : datetime) : timedelta :=
  let secs1 := second a + minute a * 60 + hour a * 3600 in
  let secs2 := second b + minute b * 60 + hour b * 3600 in
  timedelta_new (toordinal a - toordinal b) (secs1 - secs2)
                (microsecond a - microsecond b).

(** *** [strptime(data, "%d.%m.%Y")]

    [_strptime] turns the format into a regular expression, matches it at
    the start of the data with [re]'s backtracking matcher, requires the
    match to reach the end of the data, converts the groups with [int]
    and builds the date. *)

Inductive group : Type := Gd | Gm | GY.

Inductive regex : Type :=
| Chr (c : codepoint)          (* a literal character *)
| Rng (lo hi : codepoint)      (* [lo-hi] *)
| Dec                          (* \d *)
| Cat (r1 r2 : regex)          (* r1r2 *)
| Alt (r1 r2 : regex)          (* r1|r2, r1 tried first *)
| Grp (g : group) (r : regex). (* (?P<g>r) *)

Definition captures := list (group * str).

Section Matcher.
Variable R : Type.

Definition one (p : codepoint -> bool) (s : str) (caps : captures)
           (k : str -> captures -> str -> option R) : option R :=
  match s with
  | c :: rest => if p c then k [c] caps rest else None
  | [] => None
  end.

(** [rmatch r s caps k]: the first way, in [re]'s order, of matching [r]
    at the start of [s] for which the continuation [k] (given the text
    matched, the groups and the rest) succeeds. *)
Fixpoint rmatch (r : regex) (s : str) (caps : captures)
         (k : str -> captures -> str -> option R) : option R :=
  match r with
  | Chr c => one (N.eqb c) s caps k
  | Rng lo hi => one (fun x => (lo <=? x) && (x <=? hi))%N s caps k
  | Dec => one Unicode.isdecimal_cp s caps k
  | Cat r1 r2 =>
      rmatch r1 s caps (fun m1 caps1 rest1 =>
        rmatch r2 rest1 caps1 (fun m2 caps2 rest2 =>
          k (m1 ++ m2) caps2 rest2))
  | Alt r1 r2 =>
      match rmatch r1 s caps k with
      | Some x => Some x
      | None => rmatch r2 s caps k
      end
  | Grp g r1 =>
      rmatch r1 s caps (fun m caps1 rest => k m ((g, m) :: caps1) rest)
  end.
End Matcher.

(** [re.match]: the text matched and the groups. *)
Definition re_match (r : regex) (s : str) : option (str * captures) :=
  rmatch _ r s [] (fun m caps _ => Some (m, caps)).

Definition chr (s : string) : codepoint :=
  match u s with c :: _ => c | [] => 0%N end.

Definition alts (l : list regex) (last : regex) : regex :=
  fold_right Alt last l.

(** [%d]: [(?P<d>3[0-1]|[1-2]\d|0[1-9]|[1-9]| [1-9])]. *)
Definition re_d : regex :=
  Grp Gd (alts [Cat (Chr (chr "3")) (Rng (chr "0") (chr "1"));
                Cat (Rng (chr "1") (chr "2")) Dec;
                Cat (Chr (chr "0")) (Rng (chr "1") (chr "9"));
                Rng (chr "1") (chr "9")]
               (Cat (Chr (chr " ")) (Rng (chr "1") (chr "9")))).

(** [%m]: [(?P<m>1[0-2]|0[1-9]|[1-9])]. *)
Definition re_m : regex :=
  Grp Gm (alts [Cat (Chr (chr "1")) (Rng (chr "0") (chr "2"));
                Cat (Chr (chr "0")) (Rng (chr "1") (chr "9"))]
               (Rng (chr "1") (chr "9"))).

(** [%Y]: [(?P<Y>\d\d\d\d)]. *)
Definition re_Y : regex := Grp GY (Cat Dec (Cat Dec (Cat Dec Dec))).

(** The pattern of the format ["%d.%m.%Y"]. *)
Definition format_regex : regex :=
  Cat re_d (Cat (Chr (chr ".")) (Cat re_m (Cat (Chr (chr ".")) re_Y))).

Definition group_eqb (a b : group) : bool :=
  match a, b with
  | Gd, Gd | Gm, Gm | GY, GY => true
  | _, _ => false
  end.

Fixpoint found (caps : captures) (g : group) : str :=
  match caps with
  | [] => []
  | (g', m) :: caps' => if group_eqb g g' then m else found caps' g
  end.

(** [int(s)] on the text of a group: blanks are skipped, then every
    character has to be a decimal digit. *)
Fixpoint int_digits (acc : Z) (s : str) : option Z :=
  match s with
  | [] => Some acc
  | c :: s' =>
      match Unicode.decimal_value c with
      | Some v => int_digits (acc * 10 + v) s'
      | None => None
      end
  end.

Fixpoint lstrip (s : str) : str :=
  match s with
  | c :: s' => if N.eqb c (chr " ") then lstrip s' else s
  | [] => []
  end.

Definition int (s : str) : result Z :=
  match lstrip s with
  | [] => Raise (ValueError "invalid literal for int() with base 10")
  | t => match int_digits 0 t with
         | Some z => Ok z
         | None => Raise (ValueError "invalid literal for int() with base 10")
         end
  end.

(** [datetime.strptime(data, "%d.%m.%Y")]. The messages of the first two
    errors also quote the data; their text is cut short here. The pattern
    is compiled with [re.IGNORECASE], which changes nothing for digits,
    dots and blanks. The date is checked by the constructor: hour, minute,
    second and microsecond are 0. *)
Definition strptime (data : str) : result datetime :=
  match re_match format_regex data with
  | None => Raise (ValueError "time data does not match format")
  | Some (m, caps) =>
      if negb (len data =? len m) then
        Raise (ValueError "unconverted data remains")
      else
        (d <-r int (found caps Gd) ;;
         mo <-r int (found caps Gm) ;;
         y <-r int (found caps GY) ;;
         new y mo d 0 0 0 0)%py
  end.

(** *** [t.strftime("%d.%m.%Y")] *)

Definition digit_char (v : Z) : codepoint := Z.to_N (48 + v).

Definition pad2 (n : Z) : str :=
  [digit_char (n / 10 mod 10); digit_char (n mod 10)].

Definition pad4 (n : Z) : str :=
  [digit_char (n / 1000 mod 10); digit_char (n / 100 mod 10);
   digit_char (n / 10 mod 10); digit_char (n mod 10)].

(** [%Y] is the year in four digits where the platform's [strftime] pads
    it ([year_padded = true]), and the plain numeral where it does not (the
    C library of Linux up to CPython 3.12). Both agree from year 1000. *)
Definition strftime (year_padded : bool) (t : datetime) : str :=
  pad2 (day t) ++ u "." ++ pad2 (month t) ++ u "."
  ++ (if year_padded then pad4 (year t) else u (show (year t))).

End Datetime.

(* ================================================================= *)
(** ** [dict] with [str] keys and [list.remove] *)

Module Dict.
Section Dict.
Variable V : Type.

(** The items in insertion order. *)
Definition dict : Type := list (str * V).

(** [d.get(k)] *)
Fixpoint get_ (d : dict) (k : str) : option V :=
  match d with
  | [] => None
  | (k', v) :: d' => if str_eqb k' k then Some v else get_ d' k
  end.

(** [k in d] *)
Definition contains (d : dict) (k : str) : bool :=
  match get_ d k with Some _ => true | None => false end.

(** [d[k] = v]: a present key keeps its place, a new one goes last. *)
Fixpoint setitem (d : dict) (k : str) (v : V) : dict :=
  match d with
  | [] => [(k, v)]
  | (k', v') :: d' =>
      if str_eqb k' k then (k', v) :: d' else (k', v') :: setitem d' k v
  end.

(** [del d[k]] *)
Fixpoint delitem (d : dict) (k : str) : result dict :=
  match d with
  | [] => Raise (KeyError k)
  | (k', v') :: d' =>
      if str_eqb k' k then Ok d'
      else (d'' <-r delitem d' k ;; Ok ((k', v') :: d''))%py
  end.

Definition keys (d : dict) : list str := map fst d.

(** [d.values()] *)
Definition values (d : dict) : list V := map snd d.

(** The keys of a dict are pairwise distinct. *)
Definition dict_wf (d : dict) : Prop := NoDup (keys d).
End Dict.

Arguments get_ {V} d k.
Arguments contains {V} d k.
Arguments setitem {V} d k v.
Arguments delitem {V} d k.
Arguments keys {V} d.
Arguments values {V} d.
Arguments dict_wf {V} d.
End Dict.

(** [l.remove(x)]: the first item equal to [x] goes. *)
Fixpoint list_remove {A} (eqb : A -> A -> bool) (l : list A) (x : A)
  : result (list A) :=
  match l with
  | [] => Raise (ValueError "list.remove(x): x not in list")
  | y :: l' =>
      if eqb y x then Ok l'
      else (l'' <-r list_remove eqb l' x ;; Ok (y :: l''))%py
  end.

(** A list comprehension whose element expression may raise. *)
Fixpoint comprehension {A B} (f : A -> result B) (l : list A)
  : result (list B) :=
  match l with
  | [] => Ok []
  | a :: l' =>
      (b <-r f a ;; bs <-r comprehension f l' ;; Ok (b :: bs))%py
  end.

(* ================================================================= *)
(** ** [task.py] *)

(** *** class Field, class Name, class Phone, class Birthday *)

Record Field (V : Type) : Type := mk_Field { value : V }.
Arguments mk_Field {V} value.
Arguments value {V} f.

Definition Name (v : str) : Field str := mk_Field v.

(** [Phone.validate] *)
Definition validate (v : str) : bool :=
  Unicode.isdigit v && (len v =? 10).

(** [Phone.__init__] *)
Definition Phone (v : str) : result (Field str) :=
  if negb (validate v) then
    Raise (ValueError "Invalid phone number. Must be 10 digits.")
  else Ok (mk_Field v).

(** [Birthday.__init__] *)
Definition Birthday (v : str) : result (Field Datetime.datetime) :=
  match Datetime.strptime v with
  | Ok t => Ok (mk_Field t)
  | Raise (ValueError _) =>
      Raise (ValueError "Invalid date format. Use DD.MM.YYYY")
  | Raise e => Raise e
  end.

(** *** class Record *)

Record Record_ : Type := mk_Record {
  name : Field str;
  phones : list (Field str);
  birthday : option (Field Datetime.datetime)
}.

Definition set_phones (self : Record_) (ps : list (Field str)) : Record_ :=
  mk_Record (name self) ps (birthday self).

Definition set_birthday (self : Record_)
           (b : option (Field Datetime.datetime)) : Record_ :=
  mk_Record (name self) (phones self) b.

(** [Record.__init__]: [None] and an empty list give no phones, [None] and
    an empty string give no birthday. *)
Definition Record_init (name_ : str) (phones_ : option (list str))
           (birthday_ : option str) : result Record_ :=
  (ps <-r match phones_ with
          | Some (p :: l) => comprehension Phone (p :: l)
          | _ => Ok []
          end ;;
   b <-r match birthday_ with
         | Some (c :: s) => (b <-r Birthday (c :: s) ;; Ok (Some b))
         | _ => Ok None
         end ;;
   Ok (mk_Record (Name name_) ps b))%py.

(** Two items of [self.phones] are the same object. Every [Phone] of a
    record is created by the record for one place of its list, so this is
    decided on the values. *)
Definition same_phone (p q : Field str) : bool := str_eqb (value p) (value q).

Definition add_phone (phone : str) : M Record_ unit :=
  (self <- get ;;
   p <- lift (Phone phone) ;;
   put (set_phones self (phones self ++ [p])))%py.

Definition remove_phone (phone : str) : M Record_ unit :=
  (self <- get ;;
   match find (fun p => str_eqb (value p) phone) (phones self) with
   | Some p =>
       ps <- lift (list_remove same_phone (phones self) p) ;;
       put (set_phones self ps)
   | None => ret tt
   end)%py.

(** The loop of [edit_phone]: the first phone whose value is [old_phone]
    gets the value [new_phone], and the loop ends. *)
Fixpoint edit_loop (old_phone new_phone : str) (ps : list (Field str))
  : list (Field str) :=
  match ps with
  | [] => []
  | p :: ps' =>
      if str_eqb (value p) old_phone then mk_Field new_phone :: ps'
      else p :: edit_loop old_phone new_phone ps'
  end.

Definition edit_phone (old_phone new_phone : str) : M Record_ unit :=
  (self <- get ;;
   put (set_phones self (edit_loop old_phone new_phone (phones self))))%py.

Definition add_birthday (birthday_ : str) : M Record_ unit :=
  (b <- lift (Birthday birthday_) ;;
   self <- get ;;
   put (set_birthday self (Some b)))%py.

(** *** class AddressBook *)

Record AddressBook : Type := mk_AddressBook {
  records : Dict.dict Record_
}.

Definition AddressBook_init : AddressBook := mk_AddressBook [].

Definition add_record (record : Record_) : M AddressBook unit :=
  (self <- get ;;
   put (mk_AddressBook
          (Dict.setitem (records self) (value (name record)) record)))%py.

Definition remove_record (name_ : str) : M AddressBook unit :=
  (self <- get ;;
   if Dict.contains (records self) name_ then
     d <- lift (Dict.delitem (records self) name_) ;;
     put (mk_AddressBook d)
   else ret tt)%py.

Definition find_record (name_ : str) : M AddressBook (option Record_) :=
  (self <- get ;; ret (Dict.get_ (records self) name_))%py.

Definition list_records : M AddressBook (list Record_) :=
  (self <- get ;; ret (Dict.values (records self)))%py.

(** The body of the loop of [get_upcoming_birthdays] for a record with a
    birthday: whether the record is appended. *)
Definition is_upcoming (today : Datetime.datetime) (days : Z)
           (b : Field Datetime.datetime) : result bool :=
  (next_birthday <-r Datetime.replace_year (value b) (Datetime.year today) ;;
   next_birthday <-r
     (if Datetime.ltb next_birthday today then
        Datetime.replace_year next_birthday (Datetime.year today + 1)
      else Ok next_birthday) ;;
   let gap := Datetime.days (Datetime.sub next_birthday today) in
   Ok ((0 <=? gap) && (gap <? days)))%py.

Fixpoint upcoming_loop (today : Datetime.datetime) (days : Z)
         (rs : list Record_) (upcoming_birthdays : list Record_)
  : result (list Record_) :=
  match rs with
  | [] => Ok upcoming_birthdays
  | record :: rs' =>
      match birthday record with
      | Some b =>
          (yes <-r is_upcoming today days b ;;
           upcoming_loop today days rs'
             (if yes : bool then upcoming_birthdays ++ [record]
              else upcoming_birthdays))%py
      | None => upcoming_loop today days rs' upcoming_birthdays
      end
  end.

(** [get_upcoming_birthdays(days)], [today] being what [datetime.now()]
    returns. *)
Definition get_upcoming_birthdays (today : Datetime.datetime) (days : Z)
  : M AddressBook (list Record_) :=
  (self <- get ;;
   lift (upcoming_loop today days (Dict.values (records self)) []))%py.

(** *** The decorator and the command handlers *)

(** [sep.join(parts)] *)
Fixpoint join (sep : str) (parts : list str) : str :=
  match parts with
  | [] => []
  | p :: rest =>
      match rest with
      | [] => p
      | _ :: _ => p ++ sep ++ join sep rest
      end
  end.

(** The message of the [ValueError] of an unpacking [a, ..., *_ = args]
    with [expected] names before the star and [got] items in [args]. *)
Definition not_enough_values (expected : Z) (got : Z) : string :=
  ("not enough values to unpack (expected at least "
   ++ Datetime.show expected ++ ", got " ++ Datetime.show got ++ ")")%string.

(** [name, *_ = args] *)
Definition unpack1 (args : list str) : result str :=
  match args with
  | a :: _ => Ok a
  | _ => Raise (ValueError (not_enough_values 1 (len args)))
  end.

(** [name, phone, *_ = args] *)
Definition unpack2 (args : list str) : result (str * str) :=
  match args with
  | a :: b :: _ => Ok (a, b)
  | _ => Raise (ValueError (not_enough_values 2 (len args)))
  end.

(** [name, old_phone, new_phone, *_ = args] *)
Definition unpack3 (args : list str) : result (str * str * str) :=
  match args with
  | a :: b :: c :: _ => Ok (a, b, c)
  | _ => Raise (ValueError (not_enough_values 3 (len args)))
  end.

(** A method call on the record that [book.find_record(name)] returned:
    the record is the object the dict holds under the name, so what the
    method does to it is done to that item of the dict. Every record of a
    book is held under one key: the handlers create a record for the key
    they add it under. *)
Definition call_on {A} (name_ : str) (record : Record_)
           (method : M Record_ A) : M AddressBook A :=
  fun book =>
    match method record with
    | (r, record') =>
        (r, mk_AddressBook (Dict.setitem (records book) name_ record'))
    end.

(** The method [Record.add_birthday], under a name the handler of the same
    name does not hide. *)
Definition Record_add_birthday : str -> M Record_ unit := add_birthday.

Module Handlers.
Section Runtime.

(** What the handlers take from the runtime and this development leaves
    open: [repr] of a string (the text of a [KeyError]), [int] of a string
    (the argument of [birthdays]), and whether [%Y] of [strftime] pads the
    year to four digits. *)
Variable repr : str -> str.
Variable int_ : str -> result Z.
Variable year_padded : bool.

(** [str(e)] *)
Definition str_of_exn (e : exn) : str :=
  match e with
  | ValueError msg => u msg
  | KeyError key => repr key
  end.

(** [input_error]: a [ValueError] or [KeyError] of the function becomes
    the text the wrapper returns. *)
Definition input_error {S} (func : M S str) : M S str :=
  fun s =>
    match func s with
    | (Ok r, s') => (Ok r, s')
    | (Raise e, s') => (Ok (u "Error: " ++ str_of_exn e), s')
    end.

Definition add_contact (args : list str) : M AddressBook str :=
  input_error
    (np <- lift (unpack2 args) ;;
     record <- find_record (fst np) ;;
     match record with
     | Some record =>
         call_on (fst np) record (add_phone (snd np)) ;;
         ret (u "Phone " ++ snd np ++ u " added to contact " ++ fst np
              ++ u ".")
     | None =>
         new_record <- lift (Record_init (fst np) (Some [snd np]) None) ;;
         add_record new_record ;;
         ret (u "Contact " ++ fst np ++ u " with phone " ++ snd np
              ++ u " added.")
     end)%py.

Definition change_phone (args : list str) : M AddressBook str :=
  input_error
    (nop <- lift (unpack3 args) ;;
     record <- find_record (fst (fst nop)) ;;
     match record with
     | Some record =>
         call_on (fst (fst nop)) record
                 (edit_phone (snd (fst nop)) (snd nop)) ;;
         ret (u "Phone " ++ snd (fst nop) ++ u " changed to " ++ snd nop
              ++ u " for contact " ++ fst (fst nop) ++ u ".")
     | None => ret (u "Contact " ++ fst (fst nop) ++ u " not found.")
     end)%py.

Definition show_phones (args : list str) : M AddressBook str :=
  input_error
    (name_ <- lift (unpack1 args) ;;
     record <- find_record name_ ;;
     match record with
     | Some record =>
         ret (u "Contact " ++ name_ ++ u ": Phones: "
              ++ join (u ", ") (map value (phones record)))
     | None => ret (u "Contact " ++ name_ ++ u " not found.")
     end)%py.

(** [rec.birthday.value.strftime('%d.%m.%Y')] *)
Definition birthday_text (b : Field Datetime.datetime) : str :=
  Datetime.strftime year_padded (value b).

(** One line of [show_all_contacts]. *)
Definition contact_line (rec : Record_) : str :=
  u "Name: " ++ value (name rec) ++ u ", Phones: "
  ++ join (u ", ") (map value (phones rec)) ++ u ", Birthday: "
  ++ match birthday rec with
     | Some b => birthday_text b
     | None => u "No birthday"
     end.

Definition show_all_contacts (args : list str) : M AddressBook str :=
  input_error
    (all_records <- list_records ;;
     ret (join [10%N] (map contact_line all_records)))%py.

Definition add_birthday (args : list str) : M AddressBook str :=
  input_error
    (nb <- lift (unpack2 args) ;;
     record <- find_record (fst nb) ;;
     match record with
     | Some record =>
         call_on (fst nb) record (Record_add_birthday (snd nb)) ;;
         ret (u "Birthday " ++ snd nb ++ u " added to contact " ++ fst nb
              ++ u ".")
     | None => ret (u "Contact " ++ fst nb ++ u " not found.")
     end)%py.

Definition show_birthday (args : list str) : M AddressBook str :=
  input_error
    (name_ <- lift (unpack1 args) ;;
     record <- find_record name_ ;;
     match record with
     | Some (mk_Record _ _ (Some b)) =>
         ret (u "Contact " ++ name_ ++ u ": Birthday: " ++ birthday_text b)
     | _ => ret (u "Contact " ++ name_ ++ u " not found or no birthday set.")
     end)%py.

(** One line of [birthdays]. Every record [get_upcoming_birthdays]
    returns has a birthday; the other branch is never taken. *)
Definition upcoming_line (rec : Record_) : str :=
  value (name rec) ++ u " - "
  ++ match birthday rec with
     | Some b => birthday_text b
     | None => []
     end.

(** [birthdays], [today] being what [datetime.now()] returns. *)
Definition birthdays (today : Datetime.datetime) (args : list str)
  : M AddressBook str :=
  input_error
    (days <- lift (match args with
                   | a :: _ => int_ a
                   | [] => Ok 7
                   end) ;;
     upcoming <- get_upcoming_birthdays today days ;;
     match upcoming with
     | _ :: _ => ret (join [10%N] (map upcoming_line upcoming))
     | [] => ret (u "No upcoming birthdays.")
     end)%py.

End Runtime.
End Handlers.

(** *** Notions the properties below are stated with *)

(** Every phone of the record is one [Phone] accepts. *)
Definition phones_valid (r : Record_) : Prop :=
  Forall (fun p => validate (value p) = true) (phones r).

(** Equality of strings, for counting. *)
Definition str_eq_dec : forall a b : str, {a = b} + {a <> b} :=
  list_eq_dec N.eq_dec.

(** A run of [add_record] and [remove_record] calls. *)
Inductive book_op : Type :=
| Add (record : Record_)
| Remove (name_ : str).

Definition run_op (op : book_op) (book : AddressBook) : AddressBook :=
  match op with
  | Add record => snd (add_record record book)
  | Remove name_ => snd (remove_record name_ book)
  end.

Definition run_ops (ops : list book_op) (book : AddressBook) : AddressBook :=
  fold_left (fun b op => run_op op b) ops book.

(** Every record is held under its own name. *)
Definition keyed_by_name (book : AddressBook) : Prop :=
  Forall (fun kr => value (name (snd kr)) = fst kr) (records book).

(** The test of the loop on a record: it has a birthday and the loop body
    says yes. *)
Definition upcoming_test (today : Datetime.datetime) (days : Z)
           (r : Record_) : bool :=
  match birthday r with
  | Some b => match is_upcoming today days b with
              | Ok true => true
              | _ => false
              end
  | None => false
  end.

(** The birthday moved to this year, and to the next when it is before
    [today]: the [next_birthday] of the loop body. *)
Definition next_birthday (today : Datetime.datetime)
           (b : Field Datetime.datetime) : result Datetime.datetime :=
  (n <-r Datetime.replace_year (value b) (Datetime.year today) ;;
   if Datetime.ltb n today then
     Datetime.replace_year n (Datetime.year today + 1)
   else Ok n)%py.

(** A birthday as [Birthday] builds it: a date at midnight. *)
Definition at_midnight (t : Datetime.datetime) : Prop :=
  Datetime.hour t = 0 /\ Datetime.minute t = 0
  /\ Datetime.second t = 0 /\ Datetime.microsecond t = 0.

(** Every birthday of the book is a valid date at midnight. *)
Definition birthdays_at_midnight (book : AddressBook) : Prop :=
  forall r b, In r (Dict.values (records book)) -> birthday r = Some b ->
              Datetime.valid (value b) = true /\ at_midnight (value b).

(** The books the handlers keep: no name twice, every record under its
    own name, every phone valid. *)
Definition book_ok (book : AddressBook) : Prop :=
  Dict.dict_wf (records book)
  /\ keyed_by_name book
  /\ Forall (fun kr => phones_valid (snd kr)) (records book).

(* ================================================================= *)
(** ** The claims in the words of the specification *)

Module Spec.


Definition digit_of (c : codepoint) : Z := Z.of_N c - 48.

(** The day, month and year a string of the fixed form [DD.MM.YYYY]
    spells: two digits, a dot, two digits, a dot, four digits. *)
Definition DDMMYYYY (s : str) : option (Z * Z * Z) :=
  match s with
  | [d1; d2; p1; m1; m2; p2; y1; y2; y3; y4] =>
      if forallb Unicode.is_ascii_digit [d1; d2; m1; m2; y1; y2; y3; y4]
         && N.eqb p1 46 && N.eqb p2 46
      then Some (digit_of d1 * 10 + digit_of d2,
                 digit_of m1 * 10 + digit_of m2,
                 digit_of y1 * 1000 + digit_of y2 * 100
                 + digit_of y3 * 10 + digit_of y4)
      else None
  | _ => None
  end.

Definition midnight (d m y : Z) : Datetime.datetime :=
  Datetime.mk_datetime y m d 0 0 0 0.

(** The day [d] of the month [m] of the year [y] exists. *)
Definition real_date (d m y : Z) : bool := Datetime.valid (midnight d m y).

(** The string matches [DD.MM.YYYY] and denotes a real calendar date. *)
Definition birthday_string (s : str) : bool :=
  match DDMMYYYY s with
  | Some (d, m, y) => real_date d m y
  | None => false
  end.

(** The next occurrence of the month and day of [b] on or after the date
    of [today], as a day number: this year's date, and next year's if
    this year's is strictly earlier than today's date. *)
Definition next_occurrence (today b : Datetime.datetime) : Z :=
  let this_year :=
    Datetime.ymd2ord (Datetime.year today) (Datetime.month b)
                     (Datetime.day b) in
  if this_year <? Datetime.toordinal today then
    Datetime.ymd2ord (Datetime.year today + 1) (Datetime.month b)
                     (Datetime.day b)
  else this_year.

(** The gap in whole days from today to the next occurrence. *)
Definition gap (today b : Datetime.datetime) : Z :=
  next_occurrence today b - Datetime.toordinal today.

(** The record is included: [0 <= gap < days]. *)
Definition upcoming (today : Datetime.datetime) (days : Z)
           (b : Datetime.datetime) : bool :=
  (0 <=? gap today b) && (gap today b <? days).

End Spec.

(* ================================================================= *)
(** ** The strings [strptime(value, "%d.%m.%Y")] takes for a date

    Read off the pattern: a day, a dot, a month, a dot and a year, with
    nothing before the day and nothing after the year. *)

Module Accepted.

(** The text before the first dot and the text after it. *)
Fixpoint cut (s : str) : option (str * str) :=
  match s with
  | [] => None
  | c :: s' =>
      if N.eqb c 46 then Some ([], s')
      else match cut s' with
           | Some (a, b) => Some (c :: a, b)
           | None => None
           end
  end.

Definition in_range (lo hi c : codepoint) : bool :=
  ((lo <=? c) && (c <=? hi))%N.

(** A day: [30] or [31]; [1] or [2] and any decimal digit of Unicode;
    [0] or a blank and one of [1] ... [9]; or one of [1] ... [9] alone. *)
Definition day_text (t : str) : bool :=
  match t with
  | [c] => in_range 49 57 c
  | [c1; c2] =>
      (N.eqb c1 51 && in_range 48 49 c2)
      || (in_range 49 50 c1 && Unicode.isdecimal_cp c2)
      || ((N.eqb c1 48 || N.eqb c1 32) && in_range 49 57 c2)
  | _ => false
  end.

(** A month: [10], [11] or [12]; [0] and one of [1] ... [9]; or one of
    [1] ... [9] alone. *)
Definition month_text (t : str) : bool :=
  match t with
  | [c] => in_range 49 57 c
  | [c1; c2] =>
      (N.eqb c1 49 && in_range 48 50 c2)
      || (N.eqb c1 48 && in_range 49 57 c2)
  | _ => false
  end.

(** A year: four decimal digits of Unicode. *)
Definition year_text (t : str) : bool :=
  match t with
  | [_; _; _; _] => forallb Unicode.isdecimal_cp t
  | _ => false
  end.

(** The number a text spells; a blank counts for nothing. *)
Definition digit_value (c : codepoint) : Z :=
  match Unicode.decimal_value c with
  | Some v => v
  | None => 0
  end.

Definition number (t : str) : Z :=
  fold_left (fun a c => a * 10 + digit_value c) t 0.

(** The day, the month and the year of a string of the pattern. *)
Definition date (s : str) : option (Z * Z * Z) :=
  match cut s with
  | Some (dt, s1) =>
      match cut s1 with
      | Some (mt, yt) =>
          if day_text dt && month_text mt && year_text yt
          then Some (number dt, number mt, number yt)
          else None
      | None => None
      end
  | None => None
  end.

End Accepted.

(* ================================================================= *)
(** ** Strings and dicts *)

Lemma str_eqb_eq (a b : str) : str_eqb a b = true <-> a = b.
Proof.
  revert b; induction a as [|x a IH]; intros [|y b]; simpl;
    try (split; [discriminate | congruence]); try tauto.
  rewrite andb_true_iff, N.eqb_eq, IH. split.
  - intros [-> ->]; reflexivity.
  - intros H; injection H; auto.
Qed.

Lemma str_eqb_refl (a : str) : str_eqb a a = true.
Proof. now apply str_eqb_eq. Qed.

Lemma str_eqb_neq (a b : str) : a <> b -> str_eqb a b = false.
Proof.
  intros H. destruct (str_eqb a b) eqn:E; [|reflexivity].
  apply str_eqb_eq in E. contradiction.
Qed.

Ltac str_cases a b :=
  let E := fresh "E" in
  destruct (str_eqb a b) eqn:E;
  [ apply str_eqb_eq in E
  | let N := fresh "N" in
    assert (N : a <> b)
      by (let Q := fresh in
          intros Q; rewrite Q, str_eqb_refl in E; discriminate E) ].

Section DictFacts.
Context {V : Type}.
Implicit Types (d : Dict.dict V) (k : str) (v : V).

Lemma get_setitem_same d k v : Dict.get_ (Dict.setitem d k v) k = Some v.
Proof.
  induction d as [|[k' v'] d IH]; simpl.
  - now rewrite str_eqb_refl.
  - destruct (str_eqb k' k) eqn:E; simpl; rewrite E; auto.
Qed.

Lemma get_setitem_other d k v k' :
  k' <> k -> Dict.get_ (Dict.setitem d k v) k' = Dict.get_ d k'.
Proof.
  intros Hne. induction d as [|[k0 v0] d IH]; simpl.
  - rewrite str_eqb_neq; auto.
  - destruct (str_eqb k0 k) eqn:E; simpl.
    + apply str_eqb_eq in E; subst k0.
      rewrite str_eqb_neq; auto.
    + now rewrite IH.
Qed.

Lemma get_None_iff d k : Dict.get_ d k = None <-> ~ In k (Dict.keys d).
Proof.
  induction d as [|[k0 v0] d IH]; simpl.
  - tauto.
  - str_cases k0 k.
    + split; [discriminate | intros H; exfalso; apply H; auto].
    + rewrite IH. tauto.
Qed.

Lemma keys_setitem d k v :
  Dict.keys (Dict.setitem d k v)
  = if Dict.contains d k then Dict.keys d else Dict.keys d ++ [k].
Proof.
  unfold Dict.contains. induction d as [|[k0 v0] d IH]; simpl.
  - reflexivity.
  - destruct (str_eqb k0 k) eqn:E; simpl; [reflexivity|].
    rewrite IH. now destruct (Dict.get_ d k).
Qed.

Lemma wf_setitem d k v : Dict.dict_wf d -> Dict.dict_wf (Dict.setitem d k v).
Proof.
  unfold Dict.dict_wf. intros Hwf. rewrite keys_setitem.
  unfold Dict.contains. destruct (Dict.get_ d k) eqn:E; [assumption|].
  apply get_None_iff in E.
  apply NoDup_rev in Hwf. rewrite <- (rev_involutive (_ ++ [k])).
  apply NoDup_rev. rewrite rev_app_distr. simpl. constructor; auto.
  now rewrite <- in_rev.
Qed.

(** [del d[k]] for a present key. *)
Lemma delitem_present d k :
  Dict.contains d k = true ->
  exists d1 v d2,
    d = d1 ++ (k, v) :: d2 /\ ~ In k (Dict.keys d1)
    /\ Dict.delitem d k = Ok (d1 ++ d2).
Proof.
  unfold Dict.contains. induction d as [|[k0 v0] d IH]; simpl.
  - discriminate.
  - str_cases k0 k.
    + subst k0. intros _. exists [], v0, d. simpl. tauto.
    + intros Hc. destruct (IH Hc) as (d1 & v & d2 & -> & Hn & ->).
      exists ((k0, v0) :: d1), v, d2. simpl. intuition congruence.
Qed.

Lemma get_app_notin d1 d2 k :
  ~ In k (Dict.keys d1) -> Dict.get_ (d1 ++ d2) k = Dict.get_ d2 k.
Proof.
  induction d1 as [|[k0 v0] d1 IH]; simpl; [reflexivity|].
  intros Hn. rewrite str_eqb_neq by tauto. apply IH. tauto.
Qed.

Lemma get_app_other d1 d2 k v k' :
  k' <> k ->
  Dict.get_ (d1 ++ (k, v) :: d2) k' = Dict.get_ (d1 ++ d2) k'.
Proof.
  intros Hne. induction d1 as [|[k0 v0] d1 IH]; simpl.
  - rewrite str_eqb_neq; auto.
  - now rewrite IH.
Qed.
End DictFacts.

(* ================================================================= *)
(** ** Phone *)

Lemma ascii_digit_cases (c : codepoint) :
  Unicode.is_ascii_digit c = true ->
  (c = 48 \/ c = 49 \/ c = 50 \/ c = 51 \/ c = 52
   \/ c = 53 \/ c = 54 \/ c = 55 \/ c = 56 \/ c = 57)%N.
Proof.
  unfold Unicode.is_ascii_digit. rewrite andb_true_iff, !N.leb_le. lia.
Qed.

Lemma ascii_digit_decimal (c : codepoint) :
  Unicode.is_ascii_digit c = true ->
  Unicode.decimal_value c = Some (Spec.digit_of c).
Proof.
  intros H. apply ascii_digit_cases in H.
  repeat (destruct H as [-> | H]; [reflexivity|]). now subst.
Qed.


Lemma len_nil_iff {A} (l : list A) : len l = 0 <-> l = [].
Proof.
  unfold len. destruct l; simpl; split; try reflexivity; try discriminate; lia.
Qed.




(* ================================================================= *)
(** ** Record *)

Lemma Field_eta {V} (f : Field V) : mk_Field (value f) = f.
Proof. now destruct f. Qed.

Lemma Record_eta (r : Record_) :
  mk_Record (name r) (phones r) (birthday r) = r.
Proof. now destruct r. Qed.

Lemma edit_loop_absent old_phone new_phone ps :
  (forall p, In p ps -> value p <> old_phone) ->
  edit_loop old_phone new_phone ps = ps.
Proof.
  induction ps as [|p ps IH]; simpl; [reflexivity|].
  intros H. rewrite str_eqb_neq by auto. now rewrite IH by auto.
Qed.

Lemma edit_loop_first old_phone new_phone l1 p l2 :
  (forall q, In q l1 -> value q <> old_phone) ->
  value p = old_phone ->
  edit_loop old_phone new_phone (l1 ++ p :: l2)
  = l1 ++ mk_Field new_phone :: l2.
Proof.
  intros Hl1 Hp. induction l1 as [|q l1 IH]; simpl.
  - now rewrite Hp, str_eqb_refl.
  - rewrite str_eqb_neq by (apply Hl1; simpl; auto).
    rewrite IH; [reflexivity|]. intros; apply Hl1; simpl; auto.
Qed.

(** C5: [edit_phone(old_phone, new_phone)] never raises, whatever
    [new_phone] is; it gives the first phone whose value is [old_phone] the
    value [new_phone] at its place and leaves the name, the birthday and
    every other phone as they are; with no such phone the record is
    unchanged. *)
Theorem edit_phone_replaces_first (self : Record_) (old_phone new_phone : str) :
  fst (edit_phone old_phone new_phone self) = Ok tt
  /\ name (snd (edit_phone old_phone new_phone self)) = name self
  /\ birthday (snd (edit_phone old_phone new_phone self)) = birthday self
  /\ (forall l1 p l2,
         phones self = l1 ++ p :: l2 ->
         (forall q, In q l1 -> value q <> old_phone) ->
         value p = old_phone ->
         phones (snd (edit_phone old_phone new_phone self))
         = l1 ++ mk_Field new_phone :: l2)
  /\ ((forall p, In p (phones self) -> value p <> old_phone) ->
      snd (edit_phone old_phone new_phone self) = self).
Proof.
  unfold edit_phone, bind, get, put, set_phones; simpl.
  repeat split.
  - intros l1 p l2 -> Hl1 Hp. now apply edit_loop_first.
  - intros H. rewrite edit_loop_absent by assumption. apply Record_eta.
Qed.

(** The loop of [remove_phone]: the phone found is the first with the value
    looked for, and [list.remove] takes it out of its place. *)
Lemma remove_loop ps phone :
  match find (fun p => str_eqb (value p) phone) ps with
  | Some p =>
      exists l1 l2,
        ps = l1 ++ p :: l2 /\ value p = phone
        /\ (forall q, In q l1 -> value q <> phone)
        /\ list_remove same_phone ps p = Ok (l1 ++ l2)
  | None => forall q, In q ps -> value q <> phone
  end.
Proof.
  induction ps as [|q ps IH]; simpl.
  - tauto.
  - str_cases (value q) phone.
    + exists [], ps. simpl. unfold same_phone. rewrite str_eqb_refl.
      repeat split; auto.
    + destruct (find _ ps) as [p|].
      * destruct IH as (l1 & l2 & -> & Hp & Hl1 & Hr).
        exists (q :: l1), l2. simpl. unfold same_phone at 1.
        rewrite Hp, str_eqb_neq by assumption. rewrite Hr. simpl.
        repeat split; auto. intros q' [<- | Hq]; auto.
      * intros q' [<- | Hq]; auto.
Qed.

Lemma remove_phone_absent (self : Record_) (phone : str) :
  (forall p, In p (phones self) -> value p <> phone) ->
  remove_phone phone self = (Ok tt, self).
Proof.
  intros H. unfold remove_phone, bind, get; simpl.
  pose proof (remove_loop (phones self) phone) as L.
  destruct (find _ (phones self)) as [p|]; [|reflexivity].
  destruct L as (l1 & l2 & E & Hp & _). exfalso.
  apply (H p); [rewrite E; apply in_elt | assumption].
Qed.

Lemma remove_phone_first (self : Record_) (phone : str) l1 p l2 :
  phones self = l1 ++ p :: l2 ->
  (forall q, In q l1 -> value q <> phone) ->
  value p = phone ->
  remove_phone phone self = (Ok tt, set_phones self (l1 ++ l2)).
Proof.
  intros E Hl1 Hp. unfold remove_phone, bind, get, lift, put; simpl.
  pose proof (remove_loop (phones self) phone) as L.
  destruct (find _ (phones self)) as [p'|].
  - destruct L as (k1 & k2 & E' & Hp' & Hk1 & ->).
    rewrite E in E'.
    assert (l1 = k1 /\ l2 = k2) as [-> ->]; [|reflexivity].
    clear - E' Hl1 Hk1 Hp Hp'. revert k1 E' Hk1.
    induction l1 as [|a l1 IH]; intros [|b k1] E' Hk1; simpl in E'.
    + injection E' as _ ->. auto.
    + injection E' as -> _. exfalso. apply (Hk1 b); simpl; auto.
    + injection E' as -> _. exfalso. apply (Hl1 p'); simpl; auto.
    + injection E' as -> E'.
      destruct (IH (fun q Hq => Hl1 q (or_intror Hq)) k1 E'
                   (fun q Hq => Hk1 q (or_intror Hq))) as [-> ->]. auto.
  - exfalso. apply (L p); [rewrite E; apply in_elt | assumption].
Qed.

Lemma add_phone_valid (self : Record_) (phone : str) :
  validate phone = true ->
  add_phone phone self
  = (Ok tt, set_phones self (phones self ++ [mk_Field phone])).
Proof.
  intros H. unfold add_phone, bind, get, lift, put, Phone. now rewrite H.
Qed.

Lemma first_match_split (ps : list (Field str)) (phone : str) :
  (forall p, In p ps -> value p <> phone)
  \/ exists l1 p l2,
       ps = l1 ++ p :: l2 /\ (forall q, In q l1 -> value q <> phone)
       /\ value p = phone.
Proof.
  pose proof (remove_loop ps phone) as L.
  destruct (find _ ps) as [p|]; [right | left; assumption].
  destruct L as (l1 & l2 & E & Hp & Hl1 & _). exists l1, p, l2. auto.
Qed.

(** C6, as the code has it: for a valid phone value [v], [add_phone(v)]
    then [remove_phone(v)] does not raise and leaves the name and the
    birthday; the phones are the former ones up to their order, the first
    of value [v] being the one removed; the record is as before when it
    held no phone of value [v]. [remove_phone] alone removes the first phone
    of the value and does nothing, without raising, when there is none. *)
Theorem add_phone_then_remove_phone (self : Record_) (v : str) :
  validate v = true ->
  let run := (add_phone v ;; remove_phone v)%py self in
  fst run = Ok tt
  /\ name (snd run) = name self
  /\ birthday (snd run) = birthday self
  /\ Permutation (phones (snd run)) (phones self)
  /\ ((forall p, In p (phones self) -> value p <> v) -> snd run = self)
  /\ (forall l1 p l2,
         phones self = l1 ++ p :: l2 ->
         (forall q, In q l1 -> value q <> v) -> value p = v ->
         phones (snd run) = l1 ++ l2 ++ [mk_Field v])
  /\ (forall r : Record_,
         (forall p, In p (phones r) -> value p <> v) ->
         remove_phone v r = (Ok tt, r))
  /\ (forall (r : Record_) l1 p l2,
         phones r = l1 ++ p :: l2 ->
         (forall q, In q l1 -> value q <> v) -> value p = v ->
         fst (remove_phone v r) = Ok tt
         /\ phones (snd (remove_phone v r)) = l1 ++ l2).
Proof.
  intros Hv run.
  assert (Hfirst : forall l1 p l2,
             phones self = l1 ++ p :: l2 ->
             (forall q, In q l1 -> value q <> v) -> value p = v ->
             run = (Ok tt, set_phones self (l1 ++ l2 ++ [mk_Field v]))).
  { intros l1 p l2 E Hl1 Hp. subst run. unfold bind.
    rewrite (add_phone_valid self v Hv).
    rewrite (remove_phone_first _ v l1 p (l2 ++ [mk_Field v])); auto.
    simpl. rewrite E, <- app_assoc. reflexivity. }
  assert (Habsent : (forall p, In p (phones self) -> value p <> v) ->
                    run = (Ok tt, self)).
  { intros H. subst run. unfold bind.
    rewrite (add_phone_valid self v Hv).
    rewrite (remove_phone_first _ v (phones self) (mk_Field v) []); auto.
    unfold set_phones; simpl. rewrite app_nil_r. now rewrite Record_eta. }
  assert (Hrm0 : forall r : Record_,
             (forall p, In p (phones r) -> value p <> v) ->
             remove_phone v r = (Ok tt, r))
    by (intros r H; now apply remove_phone_absent).
  assert (Hrm1 : forall (r : Record_) l1 p l2,
             phones r = l1 ++ p :: l2 ->
             (forall q, In q l1 -> value q <> v) -> value p = v ->
             fst (remove_phone v r) = Ok tt
             /\ phones (snd (remove_phone v r)) = l1 ++ l2)
    by (intros r l1 p l2 E H1 H2;
        rewrite (remove_phone_first r v l1 p l2) by assumption;
        split; reflexivity).
  destruct (first_match_split (phones self) v)
    as [Hno | (l1 & p & l2 & E & Hl1 & Hp)].
  - rewrite (Habsent Hno). simpl.
    do 5 (split; [auto|]). split; [|split; assumption].
    intros l1 p l2 E _ Hp. exfalso.
    apply (Hno p); [rewrite E; apply in_elt | assumption].
  - rewrite (Hfirst l1 p l2 E Hl1 Hp). simpl.
    do 3 (split; [auto|]).
    split; [|split; [|split; [|split; assumption]]].
    + rewrite E. apply Permutation_app_head.
      rewrite <- (Field_eta p), Hp.
      apply Permutation_sym, Permutation_cons_append.
    + intros Hno. exfalso.
      apply (Hno p); [rewrite E; apply in_elt | assumption].
    + intros k1 q k2 E' Hk1 Hq.
      pose proof (Hfirst k1 q k2 E' Hk1 Hq) as R.
      rewrite (Hfirst l1 p l2 E Hl1 Hp) in R.
      apply (f_equal (fun x => phones (snd x))) in R. exact R.
Qed.

(** The theorem at a record that already holds the value: the second phone
    moves in front of it. *)
Lemma add_phone_then_remove_phone_witness :
  let v := u "0501234567" in
  let self := mk_Record (Name (u "Ann")) [mk_Field v; mk_Field (u "0677654321")] None in
  validate v = true
  /\ fst ((add_phone v ;; remove_phone v)%py self) = Ok tt
  /\ Permutation (phones (snd ((add_phone v ;; remove_phone v)%py self)))
                 (phones self).
Proof.
  split; [reflexivity|].
  pose proof (add_phone_then_remove_phone
                (mk_Record (Name (u "Ann"))
                   [mk_Field (u "0501234567"); mk_Field (u "0677654321")] None)
                (u "0501234567") eq_refl) as H.
  cbv zeta in H. destruct H as (H1 & _ & _ & H4 & _). split; assumption.
Defined.

(** C6, as stated, fails: a record holds the phones [v], [w]; after
    [add_phone(v)] and [remove_phone(v)] it holds [w], [v]. *)
Lemma add_phone_then_remove_phone_reorders :
  let v := u "0501234567" in
  let w := u "0677654321" in
  let self := mk_Record (Name (u "Ann")) [mk_Field v; mk_Field w] None in
  validate v = true
  /\ fst ((add_phone v ;; remove_phone v)%py self) = Ok tt
  /\ phones self = [mk_Field v; mk_Field w]
  /\ phones (snd ((add_phone v ;; remove_phone v)%py self))
     = [mk_Field w; mk_Field v].
Proof. vm_compute. auto. Qed.

(** C9: a call of [add_phone] or [add_birthday] that raises leaves the
    record as it was; [add_phone] raises the error of [Phone] whenever the
    value does not validate, and [add_birthday] raises whatever [Birthday]
    raises. *)
Theorem failed_validation_leaves_record (self : Record_) (s : str) :
  (forall e, fst (add_phone s self) = Raise e -> snd (add_phone s self) = self)
  /\ (forall e, fst (add_birthday s self) = Raise e ->
                snd (add_birthday s self) = self)
  /\ (validate s = false ->
      add_phone s self
      = (Raise (ValueError "Invalid phone number. Must be 10 digits."), self))
  /\ (forall e, Birthday s = Raise e -> add_birthday s self = (Raise e, self)).
Proof.
  unfold add_phone, add_birthday, bind, get, lift, put, Phone.
  split; [|split; [|split]].
  - intros e. destruct (validate s); simpl; [discriminate | reflexivity].
  - intros e. destruct (Birthday s); simpl; [discriminate | reflexivity].
  - intros ->. reflexivity.
  - intros e ->. reflexivity.
Qed.

(** The theorem at a phone that is too short and at 31 February. *)
Lemma failed_validation_leaves_record_witness :
  let self := mk_Record (Name (u "Ann")) [mk_Field (u "0501234567")] None in
  (exists e, fst (add_phone (u "12345") self) = Raise e)
  /\ snd (add_phone (u "12345") self) = self
  /\ (exists e, fst (add_birthday (u "31.02.2024") self) = Raise e)
  /\ snd (add_birthday (u "31.02.2024") self) = self.
Proof.
  cbv zeta.
  pose (self := mk_Record (Name (u "Ann")) [mk_Field (u "0501234567")] None).
  destruct (failed_validation_leaves_record self (u "12345"))
    as (Hp & _ & _ & _).
  destruct (failed_validation_leaves_record self (u "31.02.2024"))
    as (_ & Hb & _ & _).
  split; [eexists; reflexivity|].
  split; [eapply Hp; reflexivity|].
  split; [eexists; reflexivity|].
  eapply Hb; reflexivity.
Defined.

(* ================================================================= *)
(** ** AddressBook *)

(** The empty book is well formed, and [add_record] and [remove_record]
    keep a book so. *)
Lemma AddressBook_init_wf : Dict.dict_wf (records AddressBook_init).
Proof. constructor. Qed.

Lemma add_record_wf (book : AddressBook) (record : Record_) :
  Dict.dict_wf (records book) ->
  Dict.dict_wf (records (snd (add_record record book))).
Proof. intros H. simpl. now apply wf_setitem. Qed.

Lemma keys_app {V} (d1 d2 : Dict.dict V) :
  Dict.keys (d1 ++ d2) = Dict.keys d1 ++ Dict.keys d2.
Proof. apply map_app. Qed.

Lemma remove_record_present (book : AddressBook) (name_ : str) :
  Dict.contains (records book) name_ = true ->
  exists d1 v d2,
    records book = d1 ++ (name_, v) :: d2
    /\ ~ In name_ (Dict.keys d1)
    /\ remove_record name_ book = (Ok tt, mk_AddressBook (d1 ++ d2)).
Proof.
  intros Hc. destruct (delitem_present _ _ Hc) as (d1 & v & d2 & E & Hn & Hd).
  exists d1, v, d2. repeat split; auto.
  unfold remove_record, bind, get, lift, put. now rewrite Hc, Hd.
Qed.

Lemma remove_record_absent (book : AddressBook) (name_ : str) :
  Dict.contains (records book) name_ = false ->
  remove_record name_ book = (Ok tt, book).
Proof.
  intros Hc. unfold remove_record, bind, get, ret. now rewrite Hc.
Qed.

Lemma remove_record_wf (book : AddressBook) (name_ : str) :
  Dict.dict_wf (records book) ->
  Dict.dict_wf (records (snd (remove_record name_ book))).
Proof.
  intros Hwf. destruct (Dict.contains (records book) name_) eqn:Hc.
  - destruct (remove_record_present _ _ Hc) as (d1 & v & d2 & E & _ & ->).
    simpl. unfold Dict.dict_wf in *. rewrite E, keys_app in Hwf. simpl in Hwf.
    rewrite keys_app. now apply NoDup_remove_1 in Hwf.
  - now rewrite remove_record_absent.
Qed.

(** C7: [add_record(record)] does not raise; afterwards [find_record] with
    the name of [record] returns [record] itself, whatever the book held
    under that name; every other name finds what it found before; the name
    keeps its place among the keys when it was there and comes last when it
    was not. *)
Theorem add_record_then_find_record (book : AddressBook) (record : Record_) :
  fst (add_record record book) = Ok tt
  /\ fst (find_record (value (name record)) (snd (add_record record book)))
     = Ok (Some record)
  /\ (forall k, k <> value (name record) ->
        fst (find_record k (snd (add_record record book)))
        = fst (find_record k book))
  /\ Dict.keys (records (snd (add_record record book)))
     = (if Dict.contains (records book) (value (name record))
        then Dict.keys (records book)
        else Dict.keys (records book) ++ [value (name record)])
  /\ (Dict.dict_wf (records book) ->
      Dict.dict_wf (records (snd (add_record record book)))).
Proof.
  split; [reflexivity|]. split; [|split; [|split]].
  - simpl. now rewrite get_setitem_same.
  - intros k Hk. simpl. now rewrite get_setitem_other.
  - simpl. apply keys_setitem.
  - apply add_record_wf.
Qed.

(** C8: on a book, [remove_record(name)] does not raise; afterwards
    [find_record(name)] returns [None]; a book without the name is
    unchanged; every other name finds what it found before. *)
Theorem remove_record_then_find_record (book : AddressBook) (name_ : str) :
  Dict.dict_wf (records book) ->
  fst (remove_record name_ book) = Ok tt
  /\ fst (find_record name_ (snd (remove_record name_ book))) = Ok None
  /\ (Dict.contains (records book) name_ = false ->
      snd (remove_record name_ book) = book)
  /\ (forall k, k <> name_ ->
        fst (find_record k (snd (remove_record name_ book)))
        = fst (find_record k book))
  /\ Dict.dict_wf (records (snd (remove_record name_ book))).
Proof.
  intros Hwf. pose proof (remove_record_wf book name_ Hwf) as Hwf'.
  destruct (Dict.contains (records book) name_) eqn:Hc.
  - destruct (remove_record_present _ _ Hc) as (d1 & v & d2 & E & Hn & R).
    rewrite R in *. simpl.
    split; [reflexivity|]. split; [|split; [discriminate|split; [|exact Hwf']]].
    + f_equal. apply get_None_iff.
      unfold Dict.dict_wf in Hwf. rewrite E, keys_app in Hwf. simpl in Hwf.
      apply NoDup_remove_2 in Hwf. now rewrite keys_app.
    + intros k Hk. rewrite E. f_equal. symmetry. now apply get_app_other.
  - rewrite (remove_record_absent _ _ Hc) in *. simpl.
    split; [reflexivity|]. split; [|split; [reflexivity|split; [reflexivity|exact Hwf']]].
    unfold Dict.contains in Hc. now destruct (Dict.get_ (records book) name_).
Qed.

(** The theorem at the book that holds Alice and Bob, Alice being removed. *)
Lemma remove_record_then_find_record_witness :
  let alice := mk_Record (Name (u "Alice")) [mk_Field (u "0501234567")] None in
  let bob := mk_Record (Name (u "Bob")) [] None in
  let book := snd ((add_record alice ;; add_record bob)%py AddressBook_init) in
  Dict.dict_wf (records book)
  /\ fst (find_record (u "Alice") book) = Ok (Some alice)
  /\ fst (find_record (u "Alice") (snd (remove_record (u "Alice") book)))
     = Ok None
  /\ fst (find_record (u "Bob") (snd (remove_record (u "Alice") book)))
     = Ok (Some bob).
Proof.
  cbv zeta.
  assert (Hwf : Dict.dict_wf
                  (records (snd ((add_record
                                    (mk_Record (Name (u "Alice"))
                                       [mk_Field (u "0501234567")] None) ;;
                                  add_record (mk_Record (Name (u "Bob")) [] None))%py
                                 AddressBook_init)))).
  { change (Dict.dict_wf
              (records (snd (add_record
                               (mk_Record (Name (u "Bob")) [] None)
                               (snd (add_record
                                       (mk_Record (Name (u "Alice"))
                                          [mk_Field (u "0501234567")] None)
                                       AddressBook_init)))))).
    apply add_record_wf, add_record_wf, AddressBook_init_wf. }
  split; [exact Hwf|]. split; [reflexivity|].
  destruct (remove_record_then_find_record _ (u "Alice") Hwf)
    as (_ & H2 & _ & _ & _).
  split; [exact H2 | reflexivity].
Defined.

(* ================================================================= *)
(** ** Birthday: [strptime] on strings of the form DD.MM.YYYY *)

Ltac digit_cases H :=
  apply ascii_digit_cases in H; decompose [or] H; clear H; subst.

Ltac settle_backtrack :=
  cbn;
  try reflexivity;
  match goal with
  | |- match ?X with _ => _ end = ?Y =>
      change Y with X; destruct X; reflexivity
  end.

(** The day and the dot after it: two digits match [%d] exactly when they
    spell a number from 1 to 31, and no shorter day is followed by a dot. *)
Lemma stage_d (R : Type) (r' : Datetime.regex) d1 d2 rest caps
      (k : str -> Datetime.captures -> str -> option R) :
  Unicode.is_ascii_digit d1 = true -> Unicode.is_ascii_digit d2 = true ->
  Datetime.rmatch R
    (Datetime.Cat Datetime.re_d (Datetime.Cat (Datetime.Chr 46%N) r'))
    (d1 :: d2 :: 46%N :: rest) caps k
  = if Datetime.between 1 (Spec.digit_of d1 * 10 + Spec.digit_of d2) 31
    then Datetime.rmatch R r' rest ((Datetime.Gd, [d1; d2]) :: caps)
           (fun m2 caps2 rest2 => k (d1 :: d2 :: 46%N :: m2) caps2 rest2)
    else None.
Proof.
  intros H1 H2. digit_cases H1; digit_cases H2; settle_backtrack.
Qed.

(** The month and the dot after it: from 01 to 12. *)
Lemma stage_m (R : Type) (r' : Datetime.regex) m1 m2 rest caps
      (k : str -> Datetime.captures -> str -> option R) :
  Unicode.is_ascii_digit m1 = true -> Unicode.is_ascii_digit m2 = true ->
  Datetime.rmatch R
    (Datetime.Cat Datetime.re_m (Datetime.Cat (Datetime.Chr 46%N) r'))
    (m1 :: m2 :: 46%N :: rest) caps k
  = if Datetime.between 1 (Spec.digit_of m1 * 10 + Spec.digit_of m2) 12
    then Datetime.rmatch R r' rest ((Datetime.Gm, [m1; m2]) :: caps)
           (fun m3 caps3 rest3 => k (m1 :: m2 :: 46%N :: m3) caps3 rest3)
    else None.
Proof.
  intros H1 H2. digit_cases H1; digit_cases H2; settle_backtrack.
Qed.

Lemma ascii_digit_isdecimal (c : codepoint) :
  Unicode.is_ascii_digit c = true -> Unicode.isdecimal_cp c = true.
Proof.
  intros H. unfold Unicode.isdecimal_cp. now rewrite (ascii_digit_decimal c H).
Qed.

(** The year: any four digits. *)
Lemma stage_Y (R : Type) y1 y2 y3 y4 rest caps
      (k : str -> Datetime.captures -> str -> option R) :
  forallb Unicode.is_ascii_digit [y1; y2; y3; y4] = true ->
  Datetime.rmatch R Datetime.re_Y (y1 :: y2 :: y3 :: y4 :: rest) caps k
  = k [y1; y2; y3; y4] ((Datetime.GY, [y1; y2; y3; y4]) :: caps) rest.
Proof.
  simpl. rewrite !andb_true_iff. intros (H1 & H2 & H3 & H4 & _).
  unfold Datetime.one.
  now rewrite !ascii_digit_isdecimal by assumption.
Qed.

Lemma ascii_digit_range (c : codepoint) :
  Unicode.is_ascii_digit c = true -> 0 <= Spec.digit_of c <= 9.
Proof.
  unfold Unicode.is_ascii_digit, Spec.digit_of.
  rewrite andb_true_iff, !N.leb_le. lia.
Qed.

Lemma int_digits_ascii (s : str) (acc : Z) :
  forallb Unicode.is_ascii_digit s = true ->
  Datetime.int_digits acc s
  = Some (fold_left (fun a c => a * 10 + Spec.digit_of c) s acc).
Proof.
  revert acc. induction s as [|c s IH]; intros acc; simpl; [reflexivity|].
  rewrite andb_true_iff. intros [Hc Hs].
  rewrite (ascii_digit_decimal c Hc). now apply IH.
Qed.

(** [int] of a group of the characters [0] ... [9]. *)
Lemma int_ascii (c : codepoint) (s : str) :
  forallb Unicode.is_ascii_digit (c :: s) = true ->
  Datetime.int (c :: s)
  = Ok (fold_left (fun a c => a * 10 + Spec.digit_of c) (c :: s) 0).
Proof.
  intros H. unfold Datetime.int.
  assert (Hl : Datetime.lstrip (c :: s) = c :: s).
  { simpl in H |- *. apply andb_true_iff in H as [Hc _].
    apply ascii_digit_cases in Hc.
    decompose [or] Hc; subst; reflexivity. }
  rewrite Hl. now rewrite (int_digits_ascii (c :: s) 0 H).
Qed.

(** What [DDMMYYYY] reads off a string, and the string it reads it off. *)
Lemma DDMMYYYY_inv (s : str) d m y :
  Spec.DDMMYYYY s = Some (d, m, y) ->
  exists d1 d2 m1 m2 y1 y2 y3 y4,
    s = [d1; d2; 46; m1; m2; 46; y1; y2; y3; y4]%N
    /\ forallb Unicode.is_ascii_digit [d1; d2; m1; m2; y1; y2; y3; y4] = true
    /\ d = Spec.digit_of d1 * 10 + Spec.digit_of d2
    /\ m = Spec.digit_of m1 * 10 + Spec.digit_of m2
    /\ y = Spec.digit_of y1 * 1000 + Spec.digit_of y2 * 100
           + Spec.digit_of y3 * 10 + Spec.digit_of y4.
Proof.
  unfold Spec.DDMMYYYY.
  destruct s as [|d1 [|d2 [|p1 [|m1 [|m2 [|p2 [|y1 [|y2 [|y3 [|y4 [|? ?]]]]]]]]]]];
    try discriminate.
  destruct (forallb _ _ && _ && _) eqn:E; [|discriminate].
  apply andb_true_iff in E as [E E2]. apply andb_true_iff in E as [E E1].
  apply N.eqb_eq in E1, E2. subst p1 p2.
  intros [= <- <- <-]. exists d1, d2, m1, m2, y1, y2, y3, y4. auto.
Qed.

(** [strptime] on a string of the form DD.MM.YYYY: the pattern matches
    when the day is from 01 to 31 and the month from 01 to 12, and the
    constructor decides. *)
Lemma strptime_DDMMYYYY (s : str) d m y :
  Spec.DDMMYYYY s = Some (d, m, y) ->
  Datetime.strptime s
  = if Datetime.between 1 d 31 && Datetime.between 1 m 12
    then Datetime.new y m d 0 0 0 0
    else Raise (ValueError "time data does not match format").
Proof.
  intros H.
  destruct (DDMMYYYY_inv s d m y H)
    as (d1 & d2 & m1 & m2 & y1 & y2 & y3 & y4 & -> & Hd & -> & -> & ->).
  clear H. pose proof Hd as Hall. simpl in Hd. rewrite !andb_true_iff in Hd.
  destruct Hd as (Hd1 & Hd2 & Hm1 & Hm2 & Hy1 & Hy2 & Hy3 & Hy4 & _).
  unfold Datetime.strptime, Datetime.re_match.
  change Datetime.format_regex
    with (Datetime.Cat Datetime.re_d
            (Datetime.Cat (Datetime.Chr 46%N)
               (Datetime.Cat Datetime.re_m
                  (Datetime.Cat (Datetime.Chr 46%N) Datetime.re_Y)))).
  rewrite stage_d by assumption.
  destruct (Datetime.between 1 _ 31); [|reflexivity].
  rewrite stage_m by assumption.
  destruct (Datetime.between 1 _ 12); [|reflexivity].
  rewrite stage_Y by (simpl; now rewrite Hy1, Hy2, Hy3, Hy4).
  match goal with
  | |- context [negb (len ?a =? len ?b)] =>
      change (negb (len a =? len b)) with false
  end.
  cbn [Datetime.found Datetime.group_eqb].
  rewrite (int_ascii y1 [y2; y3; y4])
    by (simpl; now rewrite Hy1, Hy2, Hy3, Hy4).
  rewrite (int_ascii m1 [m2]) by (simpl; now rewrite Hm1, Hm2).
  rewrite (int_ascii d1 [d2]) by (simpl; now rewrite Hd1, Hd2).
  cbn [rbind fold_left andb]. f_equal; ring.
Qed.

(** The constructor returns exactly the valid datetimes, and raises
    nothing but [ValueError]. *)
Lemma new_Ok_iff y m d hh mm ss us t :
  Datetime.new y m d hh mm ss us = Ok t
  <-> t = Datetime.mk_datetime y m d hh mm ss us /\ Datetime.valid t = true.
Proof.
  unfold Datetime.new, Datetime.valid. split.
  - repeat match goal with
           | |- context [negb (Datetime.between ?a ?b ?c)] =>
               destruct (Datetime.between a b c) eqn:?; simpl; try discriminate
           end.
    intros [= <-]. simpl.
    repeat match goal with H : _ = true |- _ => rewrite H; clear H end. auto.
  - intros [-> H]. simpl in H. rewrite !andb_true_iff in H.
    destruct H as ((((((-> & ->) & ->) & ->) & ->) & ->) & ->). reflexivity.
Qed.

Lemma new_raises y m d hh mm ss us e :
  Datetime.new y m d hh mm ss us = Raise e -> exists msg, e = ValueError msg.
Proof.
  unfold Datetime.new.
  repeat match goal with
         | |- context [negb (Datetime.between ?a ?b ?c)] =>
             destruct (Datetime.between a b c); simpl;
             [| intros [= <-]; eauto]
         end.
  discriminate.
Qed.

Lemma int_raises s e :
  Datetime.int s = Raise e -> exists msg, e = ValueError msg.
Proof.
  unfold Datetime.int. destruct (Datetime.lstrip s).
  - intros [= <-]; eauto.
  - destruct (Datetime.int_digits _ _); [discriminate | intros [= <-]; eauto].
Qed.

Lemma strptime_cases (s : str) :
  (exists y m d, Datetime.strptime s = Datetime.new y m d 0 0 0 0)
  \/ exists msg, Datetime.strptime s = Raise (ValueError msg).
Proof.
  unfold Datetime.strptime.
  destruct (Datetime.re_match _ s) as [[m caps]|]; [|eauto].
  destruct (negb _); [eauto|].
  destruct (Datetime.int (Datetime.found caps Datetime.Gd)) as [d|e] eqn:Ed;
    [|destruct (int_raises _ _ Ed) as [? ->]; simpl; eauto].
  destruct (Datetime.int (Datetime.found caps Datetime.Gm)) as [mo|e] eqn:Em;
    [|destruct (int_raises _ _ Em) as [? ->]; simpl; eauto].
  destruct (Datetime.int (Datetime.found caps Datetime.GY)) as [y|e] eqn:Ey;
    [|destruct (int_raises _ _ Ey) as [? ->]; simpl; eauto].
  simpl. eauto.
Qed.

(** What [strptime] returns is a valid date at midnight. *)
Lemma strptime_Ok (s : str) t :
  Datetime.strptime s = Ok t ->
  Datetime.valid t = true
  /\ Datetime.hour t = 0 /\ Datetime.minute t = 0
  /\ Datetime.second t = 0 /\ Datetime.microsecond t = 0.
Proof.
  destruct (strptime_cases s) as [(y & m & d & ->) | (msg & ->)];
    [|discriminate].
  intros H. apply new_Ok_iff in H as [-> H]. auto.
Qed.

Lemma strptime_raises (s : str) e :
  Datetime.strptime s = Raise e -> exists msg, e = ValueError msg.
Proof.
  destruct (strptime_cases s) as [(y & m & d & ->) | (msg & ->)].
  - apply new_raises.
  - intros [= <-]; eauto.
Qed.

Lemma Birthday_Ok (s : str) b :
  Birthday s = Ok b <-> Datetime.strptime s = Ok (value b).
Proof.
  unfold Birthday. destruct (Datetime.strptime s) as [t|[msg|k]]; split;
    try discriminate.
  - intros [= <-]; reflexivity.
  - intros [= ->]. now rewrite Field_eta.
Qed.

Lemma Birthday_raises (s : str) e :
  Birthday s = Raise e <->
  (exists e', Datetime.strptime s = Raise e')
  /\ e = ValueError "Invalid date format. Use DD.MM.YYYY".
Proof.
  unfold Birthday. destruct (Datetime.strptime s) as [t|e0] eqn:E.
  - split; [discriminate | intros [[? [=]] _]].
  - destruct (strptime_raises s e0 E) as [msg ->]. split.
    + intros [= <-]; eauto.
    + intros [_ ->]; reflexivity.
Qed.

(** *** Formatting *)

Lemma digit_char_ascii (v : Z) :
  0 <= v <= 9 ->
  Unicode.is_ascii_digit (Datetime.digit_char v) = true
  /\ Spec.digit_of (Datetime.digit_char v) = v.
Proof.
  intros H. unfold Unicode.is_ascii_digit, Datetime.digit_char, Spec.digit_of.
  rewrite andb_true_iff, !N.leb_le. lia.
Qed.

Lemma digit_char_of (c : N) :
  Unicode.is_ascii_digit c = true -> Datetime.digit_char (Spec.digit_of c) = c.
Proof.
  unfold Unicode.is_ascii_digit, Datetime.digit_char, Spec.digit_of.
  rewrite andb_true_iff, !N.leb_le. lia.
Qed.

Lemma pad2_digits (a b : N) :
  Unicode.is_ascii_digit a = true -> Unicode.is_ascii_digit b = true ->
  Datetime.pad2 (Spec.digit_of a * 10 + Spec.digit_of b) = [a; b].
Proof.
  intros Ha Hb. unfold Datetime.pad2.
  pose proof (ascii_digit_range a Ha). pose proof (ascii_digit_range b Hb).
  replace ((Spec.digit_of a * 10 + Spec.digit_of b) / 10 mod 10)
    with (Spec.digit_of a) by (Z.div_mod_to_equations; lia).
  replace ((Spec.digit_of a * 10 + Spec.digit_of b) mod 10)
    with (Spec.digit_of b) by (Z.div_mod_to_equations; lia).
  now rewrite !digit_char_of.
Qed.

Lemma pad4_digits (a b c e : N) :
  forallb Unicode.is_ascii_digit [a; b; c; e] = true ->
  Datetime.pad4 (Spec.digit_of a * 1000 + Spec.digit_of b * 100
                 + Spec.digit_of c * 10 + Spec.digit_of e)
  = [a; b; c; e].
Proof.
  simpl. rewrite !andb_true_iff. intros (Ha & Hb & Hc & He & _).
  unfold Datetime.pad4.
  pose proof (ascii_digit_range a Ha). pose proof (ascii_digit_range b Hb).
  pose proof (ascii_digit_range c Hc). pose proof (ascii_digit_range e He).
  set (n := Spec.digit_of a * 1000 + _ + _ + _).
  replace (n / 1000 mod 10) with (Spec.digit_of a)
    by (subst n; Z.div_mod_to_equations; lia).
  replace (n / 100 mod 10) with (Spec.digit_of b)
    by (subst n; Z.div_mod_to_equations; lia).
  replace (n / 10 mod 10) with (Spec.digit_of c)
    by (subst n; Z.div_mod_to_equations; lia).
  replace (n mod 10) with (Spec.digit_of e)
    by (subst n; Z.div_mod_to_equations; lia).
  now rewrite !digit_char_of.
Qed.

(** From the year 1000 the plain numeral of the year has four digits. *)
Lemma show_four_digits (y : Z) :
  1000 <= y <= 9999 -> u (Datetime.show y) = Datetime.pad4 y.
Proof.
  intros H.
  assert (All : forallb (fun n => str_eqb (u (Datetime.show (Z.of_nat n)))
                                          (Datetime.pad4 (Z.of_nat n)))
                        (seq (Z.to_nat 1000) (Z.to_nat 9000)) = true)
    by (vm_compute; reflexivity).
  rewrite forallb_forall in All.
  specialize (All (Z.to_nat y)). rewrite Z2Nat.id in All by lia.
  apply str_eqb_eq, All, in_seq. lia.
Qed.

Lemma digit_mod10 (v : Z) :
  Unicode.is_ascii_digit (Datetime.digit_char (v mod 10)) = true
  /\ Spec.digit_of (Datetime.digit_char (v mod 10)) = v mod 10.
Proof. apply digit_char_ascii. pose proof (Z.mod_pos_bound v 10). lia. Qed.

Lemma days_in_month_bounds (y m : Z) :
  Datetime.between 1 m 12 = true -> 28 <= Datetime.days_in_month y m <= 31.
Proof.
  unfold Datetime.between, Datetime.days_in_month.
  rewrite andb_true_iff, !Z.leb_le. intros H.
  assert (C : m = 1 \/ m = 2 \/ m = 3 \/ m = 4 \/ m = 5 \/ m = 6 \/ m = 7
              \/ m = 8 \/ m = 9 \/ m = 10 \/ m = 11 \/ m = 12) by lia.
  decompose [or] C; subst; simpl; try lia.
  destruct (Datetime.is_leap y); simpl; lia.
Qed.

Lemma valid_bounds (t : Datetime.datetime) :
  Datetime.valid t = true ->
  1 <= Datetime.year t <= 9999 /\ 1 <= Datetime.month t <= 12
  /\ 1 <= Datetime.day t
     <= Datetime.days_in_month (Datetime.year t) (Datetime.month t)
  /\ Datetime.day t <= 31
  /\ 0 <= Datetime.hour t <= 23 /\ 0 <= Datetime.minute t <= 59
  /\ 0 <= Datetime.second t <= 59 /\ 0 <= Datetime.microsecond t <= 999999.
Proof.
  unfold Datetime.valid. rewrite !andb_true_iff.
  intros ((((((Hy & Hm) & Hd) & Hh) & Hmi) & Hs) & Hu).
  pose proof (days_in_month_bounds (Datetime.year t) _ Hm).
  unfold Datetime.between, Datetime.MINYEAR, Datetime.MAXYEAR in *.
  rewrite andb_true_iff, !Z.leb_le in *. lia.
Qed.

(** The padded formatting of a valid date has the form DD.MM.YYYY and
    spells the date. *)
Lemma strftime_DDMMYYYY (t : Datetime.datetime) :
  Datetime.valid t = true ->
  Spec.DDMMYYYY (Datetime.strftime true t)
  = Some (Datetime.day t, Datetime.month t, Datetime.year t).
Proof.
  intros H. apply valid_bounds in H.
  destruct H as (Hy & Hm & Hd & Hd' & _).
  destruct t as [y m d hh mm ss us]. simpl in *.
  unfold Datetime.strftime, Datetime.pad2, Datetime.pad4. simpl.
  repeat match goal with
         | |- context [Unicode.is_ascii_digit (Datetime.digit_char (?v mod 10))] =>
             rewrite (proj1 (digit_mod10 v))
         end.
  simpl.
  rewrite !(fun v => proj2 (digit_mod10 v)).
  assert (Ed : (d / 10) mod 10 * 10 + d mod 10 = d)
    by (Z.div_mod_to_equations; lia).
  assert (Em : (m / 10) mod 10 * 10 + m mod 10 = m)
    by (Z.div_mod_to_equations; lia).
  assert (Ey : (y / 1000) mod 10 * 1000 + (y / 100) mod 10 * 100
               + (y / 10) mod 10 * 10 + y mod 10 = y)
    by (Z.div_mod_to_equations; lia).
  now rewrite Ed, Em, Ey.
Qed.

(** *** [strptime] on any string *)

Lemma isdecimal_not_dot (c : codepoint) :
  Unicode.isdecimal_cp c = true -> c <> 46%N /\ c <> 32%N.
Proof. intros H. split; intros ->; vm_compute in H; discriminate. Qed.

Ltac split_tests :=
  cbn -[N.eqb N.leb Unicode.isdecimal_cp];
  repeat (match goal with
          | |- context [N.eqb ?a ?b] =>
              destruct (N.eqb_spec a b); try lia
          | |- context [N.leb ?a ?b] =>
              destruct (N.leb_spec a b); try lia
          | |- context [Unicode.isdecimal_cp ?c] =>
              let E := fresh "E" in
              destruct (Unicode.isdecimal_cp c) eqn:E;
              [apply isdecimal_not_dot in E; try lia|]
          end;
          cbn -[N.eqb N.leb Unicode.isdecimal_cp]).

Ltac settle_stage :=
  split_tests; subst;
  repeat match goal with
         | |- context [Accepted.cut ?s] =>
             destruct (Accepted.cut s) as [[? ?]|];
             cbn -[N.eqb N.leb Unicode.isdecimal_cp]
         end;
  try reflexivity;
  try match goal with
  | |- match ?X with _ => _ end = ?Y =>
      change Y with X; destruct X; reflexivity
  end.

(** The day and the dot after it, on any string: the text before the
    first dot has to be a day. *)
Lemma stage_d_any (R : Type) (r' : Datetime.regex) s caps
      (k : str -> Datetime.captures -> str -> option R) :
  Datetime.rmatch R
    (Datetime.Cat Datetime.re_d (Datetime.Cat (Datetime.Chr 46%N) r'))
    s caps k
  = match Accepted.cut s with
    | Some (dt, rest) =>
        if Accepted.day_text dt
        then Datetime.rmatch R r' rest ((Datetime.Gd, dt) :: caps)
               (fun m2 caps2 rest2 => k (dt ++ 46%N :: m2) caps2 rest2)
        else None
    | None => None
    end.
Proof.
  unfold Accepted.day_text, Accepted.in_range.
  destruct s as [|c1 [|c2 [|c3 s]]]; [reflexivity | settle_stage ..].
Qed.

(** The month and the dot after it, on any string. *)
Lemma stage_m_any (R : Type) (r' : Datetime.regex) s caps
      (k : str -> Datetime.captures -> str -> option R) :
  Datetime.rmatch R
    (Datetime.Cat Datetime.re_m (Datetime.Cat (Datetime.Chr 46%N) r'))
    s caps k
  = match Accepted.cut s with
    | Some (mt, rest) =>
        if Accepted.month_text mt
        then Datetime.rmatch R r' rest ((Datetime.Gm, mt) :: caps)
               (fun m2 caps2 rest2 => k (mt ++ 46%N :: m2) caps2 rest2)
        else None
    | None => None
    end.
Proof.
  unfold Accepted.month_text, Accepted.in_range.
  destruct s as [|c1 [|c2 [|c3 s]]]; [reflexivity | settle_stage ..].
Qed.

(** The year, on any string: four decimal digits at its start. *)
Lemma stage_Y_any (R : Type) s caps
      (k : str -> Datetime.captures -> str -> option R) :
  Datetime.rmatch R Datetime.re_Y s caps k
  = match s with
    | y1 :: y2 :: y3 :: y4 :: rest =>
        if forallb Unicode.isdecimal_cp [y1; y2; y3; y4]
        then k [y1; y2; y3; y4]
               ((Datetime.GY, [y1; y2; y3; y4]) :: caps) rest
        else None
    | _ => None
    end.
Proof.
  destruct s as [|y1 [|y2 [|y3 [|y4 rest]]]]; cbn -[Unicode.isdecimal_cp];
    repeat match goal with
           | |- context [Unicode.isdecimal_cp ?c] =>
               destruct (Unicode.isdecimal_cp c); cbn -[Unicode.isdecimal_cp]
           end;
    reflexivity.
Qed.

Lemma cut_app (s a b : str) :
  Accepted.cut s = Some (a, b) -> s = a ++ 46%N :: b.
Proof.
  revert a. induction s as [|c s IH]; intros a; simpl; [discriminate|].
  destruct (N.eqb_spec c 46) as [-> |_].
  - now intros [= <- <-].
  - destruct (Accepted.cut s) as [[a' b']|]; [|discriminate].
    intros [= <- <-]. simpl. f_equal. now apply IH.
Qed.

(** [int] of a text of decimal digits. *)
Lemma int_digits_decimal (t : str) (acc : Z) :
  forallb Unicode.isdecimal_cp t = true ->
  Datetime.int_digits acc t
  = Some (fold_left (fun a c => a * 10 + Accepted.digit_value c) t acc).
Proof.
  revert acc. induction t as [|c t IH]; intros acc; simpl; [reflexivity|].
  rewrite andb_true_iff. intros [Hc Ht].
  unfold Accepted.digit_value. unfold Unicode.isdecimal_cp in Hc.
  destruct (Unicode.decimal_value c); [now apply IH | discriminate].
Qed.

Lemma int_decimal (c : codepoint) (t : str) :
  forallb Unicode.isdecimal_cp (c :: t) = true ->
  Datetime.int (c :: t) = Ok (Accepted.number (c :: t)).
Proof.
  intros H. unfold Datetime.int, Accepted.number.
  assert (Hl : Datetime.lstrip (c :: t) = c :: t).
  { simpl in H |- *. apply andb_true_iff in H as [Hc _].
    apply isdecimal_not_dot in Hc as [_ Hc].
    change (Datetime.chr " ") with 32%N.
    now destruct (N.eqb_spec c 32). }
  rewrite Hl. now rewrite (int_digits_decimal (c :: t) 0 H).
Qed.

Lemma in_range_isdecimal lo hi c :
  Accepted.in_range lo hi c = true -> (48 <= lo)%N -> (hi <= 57)%N ->
  Unicode.isdecimal_cp c = true.
Proof.
  unfold Accepted.in_range. rewrite andb_true_iff, !N.leb_le.
  intros [H1 H2] Hlo Hhi. apply ascii_digit_isdecimal.
  unfold Unicode.is_ascii_digit. rewrite andb_true_iff, !N.leb_le. lia.
Qed.

(** [int] of a day: a blank before the digit is skipped. *)
Lemma int_day (t : str) :
  Accepted.day_text t = true -> Datetime.int t = Ok (Accepted.number t).
Proof.
  destruct t as [|c1 [|c2 [|? ?]]]; try discriminate;
    unfold Accepted.day_text.
  - intros H. apply int_decimal. simpl.
    now rewrite (in_range_isdecimal _ _ _ H) by lia.
  - rewrite !orb_true_iff, !andb_true_iff, orb_true_iff, !N.eqb_eq.
    intros [[[-> H] | [H1 H2]] | [[-> | ->] H]].
    + apply int_decimal. simpl.
      now rewrite (in_range_isdecimal _ _ _ H) by lia.
    + apply int_decimal. simpl.
      now rewrite (in_range_isdecimal _ _ _ H1), H2 by lia.
    + apply int_decimal. simpl.
      now rewrite (in_range_isdecimal _ _ _ H) by lia.
    + transitivity (Datetime.int [c2]); [reflexivity|].
      rewrite int_decimal; [reflexivity|]. simpl.
      now rewrite (in_range_isdecimal _ _ _ H) by lia.
Qed.

Lemma int_month (t : str) :
  Accepted.month_text t = true -> Datetime.int t = Ok (Accepted.number t).
Proof.
  destruct t as [|c1 [|c2 [|? ?]]]; try discriminate;
    unfold Accepted.month_text.
  - intros H. apply int_decimal. simpl.
    now rewrite (in_range_isdecimal _ _ _ H) by lia.
  - rewrite !orb_true_iff, !andb_true_iff, !N.eqb_eq.
    intros [[-> H] | [-> H]]; apply int_decimal; simpl;
      now rewrite (in_range_isdecimal _ _ _ H) by lia.
Qed.

(** [strptime] on any string: it reaches the constructor exactly on the
    strings of the pattern, with their day, month and year. *)
Lemma strptime_date (s : str) :
  match Accepted.date s with
  | Some (d, m, y) => Datetime.strptime s = Datetime.new y m d 0 0 0 0
  | None => exists msg, Datetime.strptime s = Raise (ValueError msg)
  end.
Proof.
  unfold Datetime.strptime, Datetime.re_match, Accepted.date.
  change Datetime.format_regex
    with (Datetime.Cat Datetime.re_d
            (Datetime.Cat (Datetime.Chr 46%N)
               (Datetime.Cat Datetime.re_m
                  (Datetime.Cat (Datetime.Chr 46%N) Datetime.re_Y)))).
  rewrite stage_d_any.
  destruct (Accepted.cut s) as [[dt s1]|] eqn:C1; [|eauto].
  rewrite stage_m_any.
  destruct (Accepted.cut s1) as [[mt yt]|] eqn:C2;
    [|destruct (Accepted.day_text dt); eauto].
  apply cut_app in C1, C2. subst s s1.
  destruct (Accepted.day_text dt) eqn:D; [|simpl; eauto].
  destruct (Accepted.month_text mt) eqn:Mo; [|simpl; eauto].
  rewrite stage_Y_any. cbn [andb].
  destruct yt as [|y1 [|y2 [|y3 [|y4 rest]]]]; try solve [simpl; eauto].
  unfold Accepted.year_text.
  destruct rest as [|c rest].
  - destruct (forallb Unicode.isdecimal_cp [y1; y2; y3; y4]) eqn:Y; [|eauto].
    cbn [app]. rewrite Z.eqb_refl.
    cbn [negb Datetime.found Datetime.group_eqb].
    rewrite (int_day dt D), (int_month mt Mo), (int_decimal _ _ Y).
    reflexivity.
  - destruct (forallb Unicode.isdecimal_cp [y1; y2; y3; y4]); [|eauto].
    assert (L : (len (dt ++ 46%N :: mt ++ 46%N
                         :: y1 :: y2 :: y3 :: y4 :: c :: rest)
                 =? len (dt ++ 46%N :: mt ++ [46; y1; y2; y3; y4]%N))
                = false).
    { unfold len. rewrite !length_app. simpl List.length.
      rewrite !length_app. simpl List.length. apply Z.eqb_neq. lia. }
    cbn [app] in L |- *. rewrite L. cbn [negb]. eauto.
Qed.

(** [Birthday] on any string. *)
Lemma Birthday_date (s : str) :
  Birthday s
  = match Accepted.date s with
    | Some (d, m, y) =>
        if Spec.real_date d m y
        then Ok (mk_Field (Spec.midnight d m y))
        else Raise (ValueError "Invalid date format. Use DD.MM.YYYY")
    | None => Raise (ValueError "Invalid date format. Use DD.MM.YYYY")
    end.
Proof.
  pose proof (strptime_date s) as H. unfold Birthday.
  destruct (Accepted.date s) as [[[d m] y]|].
  - rewrite H. destruct (Datetime.new y m d 0 0 0 0) as [t|e] eqn:N.
    + apply new_Ok_iff in N as [-> N]. unfold Spec.real_date, Spec.midnight.
      now rewrite N.
    + destruct (new_raises _ _ _ _ _ _ _ _ N) as [msg ->].
      destruct (Spec.real_date d m y) eqn:V; [|reflexivity].
      assert (N' : Datetime.new y m d 0 0 0 0 = Ok (Spec.midnight d m y))
        by (apply new_Ok_iff; split; [reflexivity | exact V]).
      congruence.
  - destruct H as [msg ->]. reflexivity.
Qed.

(** A string of the form DD.MM.YYYY that spells a real date is of the
    pattern, and the pattern reads the same date off it. *)
Lemma date_DDMMYYYY (s : str) d m y :
  Spec.DDMMYYYY s = Some (d, m, y) -> Spec.real_date d m y = true ->
  Accepted.date s = Some (d, m, y).
Proof.
  intros H V. pose proof (strptime_DDMMYYYY s d m y H) as P.
  pose proof V as B. unfold Spec.real_date in B.
  apply valid_bounds in B. simpl in B.
  assert (E : Datetime.between 1 d 31 && Datetime.between 1 m 12 = true)
    by (unfold Datetime.between; rewrite !andb_true_iff, !Z.leb_le; lia).
  assert (N : Datetime.new y m d 0 0 0 0 = Ok (Spec.midnight d m y))
    by (apply new_Ok_iff; split; [reflexivity | exact V]).
  rewrite E, N in P. pose proof (strptime_date s) as Q.
  destruct (Accepted.date s) as [[[d' m'] y']|].
  - rewrite P in Q. symmetry in Q. apply new_Ok_iff in Q as [Q _].
    unfold Spec.midnight in Q. now injection Q as -> -> ->.
  - destruct Q as [msg Q]. congruence.
Qed.

(** C3, as the code has it. For a string of the form DD.MM.YYYY,
    [Birthday] succeeds exactly when the string denotes a real calendar
    date (of the years 1 to 9999), stores that date at midnight, and
    formatting the stored date gives the string back (from the year 1000
    also where [%Y] is not padded). Whatever the string, what [Birthday]
    stores is a real date at midnight, the padded formatting of it is the
    string only if the string has the form DD.MM.YYYY, and a failure is
    the [ValueError] of the class. [Birthday] succeeds on exactly the
    strings of the pattern of [strptime] that spell a real date: a day, a
    dot, a month, a dot and a year, where the day may also be one digit,
    have a blank for its zero, or a decimal digit of another script after
    [1] or [2], the month may also be one digit, and the year is any four
    decimal digits; on every other string it fails. The real dates of the
    form DD.MM.YYYY are among them. *)
Theorem Birthday_of_DDMMYYYY (s : str) :
  (forall d m y,
      Spec.DDMMYYYY s = Some (d, m, y) ->
      (Spec.real_date d m y = true ->
       Birthday s = Ok (mk_Field (Spec.midnight d m y))
       /\ Datetime.strftime true (Spec.midnight d m y) = s
       /\ (1000 <= y -> Datetime.strftime false (Spec.midnight d m y) = s))
      /\ (Spec.real_date d m y = false ->
          Birthday s
          = Raise (ValueError "Invalid date format. Use DD.MM.YYYY")))
  /\ (forall b,
         Birthday s = Ok b ->
         Datetime.valid (value b) = true
         /\ Datetime.hour (value b) = 0 /\ Datetime.minute (value b) = 0
         /\ Datetime.second (value b) = 0
         /\ Datetime.microsecond (value b) = 0
         /\ (Datetime.strftime true (value b) = s ->
             Spec.birthday_string s = true))
  /\ (forall e,
         Birthday s = Raise e ->
         e = ValueError "Invalid date format. Use DD.MM.YYYY")
  /\ Birthday s
     = match Accepted.date s with
       | Some (d, m, y) =>
           if Spec.real_date d m y
           then Ok (mk_Field (Spec.midnight d m y))
           else Raise (ValueError "Invalid date format. Use DD.MM.YYYY")
       | None => Raise (ValueError "Invalid date format. Use DD.MM.YYYY")
       end
  /\ (forall d m y,
         Spec.DDMMYYYY s = Some (d, m, y) -> Spec.real_date d m y = true ->
         Accepted.date s = Some (d, m, y)).
Proof.
  split; [|split; [|split; [|split]]].
  - intros d m y H. pose proof (strptime_DDMMYYYY s d m y H) as P.
    destruct (DDMMYYYY_inv s d m y H)
      as (d1 & d2 & m1 & m2 & y1 & y2 & y3 & y4 & Es & Hd & Ed & Em & Ey).
    pose proof Hd as Hall. simpl in Hd. rewrite !andb_true_iff in Hd.
    destruct Hd as (Hd1 & Hd2 & Hm1 & Hm2 & Hy1 & Hy2 & Hy3 & Hy4 & _).
    split.
    + intros R. pose proof R as R'. unfold Spec.real_date in R.
      apply valid_bounds in R. simpl in R.
      assert (N : Datetime.new y m d 0 0 0 0 = Ok (Spec.midnight d m y))
        by (apply new_Ok_iff; split; [reflexivity | exact R']).
      assert (B : Datetime.between 1 d 31 && Datetime.between 1 m 12 = true)
        by (unfold Datetime.between; rewrite !andb_true_iff, !Z.leb_le; lia).
      rewrite B, N in P.
      assert (F : Datetime.strftime true (Spec.midnight d m y) = s).
      { unfold Datetime.strftime, Spec.midnight.
        cbn [Datetime.day Datetime.month Datetime.year].
        rewrite Es, Ed, Em, Ey.
        rewrite !pad2_digits by assumption.
        rewrite pad4_digits by (simpl; now rewrite Hy1, Hy2, Hy3, Hy4).
        reflexivity. }
      split; [|split].
      * apply Birthday_Ok. exact P.
      * exact F.
      * intros Hy. rewrite <- F. unfold Datetime.strftime, Spec.midnight.
        cbn [Datetime.day Datetime.month Datetime.year].
        rewrite show_four_digits by lia. reflexivity.
    + intros R. apply Birthday_raises. split; [|reflexivity].
      rewrite P. destruct (Datetime.between 1 d 31 && Datetime.between 1 m 12);
        [|eauto].
      destruct (Datetime.new y m d 0 0 0 0) as [t|e] eqn:N; [|eauto].
      apply new_Ok_iff in N as [-> N]. unfold Spec.real_date in R.
      unfold Spec.midnight in R. congruence.
  - intros b H. apply Birthday_Ok in H.
    destruct (strptime_Ok s _ H) as (V & Hh & Hm & Hs & Hu).
    repeat (split; [assumption|]).
    intros F. unfold Spec.birthday_string.
    rewrite <- F, (strftime_DDMMYYYY _ V). unfold Spec.real_date, Spec.midnight.
    destruct (value b) as [y m d hh mm ss us]. simpl in *. now subst.
  - intros e H. now apply Birthday_raises in H.
  - apply Birthday_date.
  - apply date_DDMMYYYY.
Qed.

(** The theorem at Bob's birthday and at 31 February; at strings that
    have not the form DD.MM.YYYY and are taken: a blank for the zero of
    the day, and digits of the Arabic script in the day and in the year;
    and at strings that fail: other separators, the month before the day,
    text after the year, a year of two digits. *)
Lemma Birthday_of_DDMMYYYY_witness :
  Birthday (u "15.03.1990") = Ok (mk_Field (Spec.midnight 15 3 1990))
  /\ Datetime.strftime true (Spec.midnight 15 3 1990) = u "15.03.1990"
  /\ Birthday (u "31.02.2024")
     = Raise (ValueError "Invalid date format. Use DD.MM.YYYY")
  /\ Birthday (u " 1.1.2024") = Ok (mk_Field (Spec.midnight 1 1 2024))
  /\ Birthday [50; 0x665; 46; 48; 51; 46; 0x661; 0x669; 0x669; 0x660]%N
     = Ok (mk_Field (Spec.midnight 25 3 1990))
  /\ Birthday (u "15/03/1990")
     = Raise (ValueError "Invalid date format. Use DD.MM.YYYY")
  /\ Birthday (u "03.15.1990")
     = Raise (ValueError "Invalid date format. Use DD.MM.YYYY")
  /\ Birthday (u "15.03.1990 ")
     = Raise (ValueError "Invalid date format. Use DD.MM.YYYY")
  /\ Birthday (u "15.03.90")
     = Raise (ValueError "Invalid date format. Use DD.MM.YYYY").
Proof.
  destruct (Birthday_of_DDMMYYYY (u "15.03.1990")) as (H & _ & _).
  destruct (H 15 3 1990 eq_refl) as ((H1 & H2 & _) & _); [reflexivity|].
  destruct (Birthday_of_DDMMYYYY (u "31.02.2024")) as (G & _ & _).
  destruct (G 31 2 2024 eq_refl) as (_ & G1).
  split; [exact H1|]. split; [exact H2|]. split; [apply G1; reflexivity|].
  split; [|split; [|split; [|split; [|split]]]].
  - rewrite (proj1 (proj2 (proj2 (proj2
               (Birthday_of_DDMMYYYY (u " 1.1.2024")))))).
    reflexivity.
  - rewrite (proj1 (proj2 (proj2 (proj2
               (Birthday_of_DDMMYYYY
                  [50; 0x665; 46; 48; 51; 46;
                   0x661; 0x669; 0x669; 0x660]%N))))).
    reflexivity.
  - rewrite (proj1 (proj2 (proj2 (proj2
               (Birthday_of_DDMMYYYY (u "15/03/1990")))))).
    reflexivity.
  - rewrite (proj1 (proj2 (proj2 (proj2
               (Birthday_of_DDMMYYYY (u "03.15.1990")))))).
    reflexivity.
  - rewrite (proj1 (proj2 (proj2 (proj2
               (Birthday_of_DDMMYYYY (u "15.03.1990 ")))))).
    reflexivity.
  - rewrite (proj1 (proj2 (proj2 (proj2
               (Birthday_of_DDMMYYYY (u "15.03.90")))))).
    reflexivity.
Defined.

(** C3, as stated, fails: [1.1.2024] has not the form DD.MM.YYYY, and
    [Birthday] accepts it; the stored date formats as [01.01.2024]. *)
Lemma Birthday_accepts_unpadded :
  let s := u "1.1.2024" in
  Birthday s = Ok (mk_Field (Spec.midnight 1 1 2024))
  /\ Spec.birthday_string s = false
  /\ Datetime.strftime true (Spec.midnight 1 1 2024) = u "01.01.2024"
  /\ Datetime.strftime false (Spec.midnight 1 1 2024) = u "01.01.2024"
  /\ str_eqb (u "01.01.2024") s = false.
Proof. vm_compute. auto. Qed.

(* ================================================================= *)
(** ** get_upcoming_birthdays *)

Lemma replace_year_raises t y e :
  Datetime.replace_year t y = Raise e -> exists msg, e = ValueError msg.
Proof. apply new_raises. Qed.

Lemma is_upcoming_raises today days b e :
  is_upcoming today days b = Raise e -> exists msg, e = ValueError msg.
Proof.
  unfold is_upcoming.
  destruct (Datetime.replace_year (value b) _) as [n1|e1] eqn:E1; simpl.
  - destruct (Datetime.ltb n1 today); simpl; [|discriminate].
    destruct (Datetime.replace_year n1 _) as [n2|e2] eqn:E2; simpl;
      [discriminate|].
    intros [= <-]. eapply replace_year_raises; eassumption.
  - intros [= <-]. eapply replace_year_raises; eassumption.
Qed.

(** The records the loop returns, when it returns: those it started with
    and, of the records it went through, those whose birthday passed the
    test of the loop body. *)
Lemma upcoming_loop_In today days rs acc l :
  upcoming_loop today days rs acc = Ok l ->
  forall r,
    In r l <->
    In r acc
    \/ (In r rs
        /\ exists b, birthday r = Some b /\ is_upcoming today days b = Ok true).
Proof.
  revert acc. induction rs as [|r0 rs IH]; intros acc; simpl.
  - intros [= <-] r. split; [auto | intros [H | [[] _]]; exact H].
  - destruct (birthday r0) as [b0|] eqn:B0.
    + destruct (is_upcoming today days b0) as [[|]|e] eqn:U; simpl;
        [| |discriminate]; intros H r; rewrite (IH _ H r).
      * rewrite in_app_iff. simpl. split.
        -- intros [[Hr | [<- | []]] | (Hr & R)]; eauto 8.
        -- intros [Hr | ([<- | Hr] & R)]; auto.
      * split.
        -- intros [Hr | (Hr & R)]; auto.
        -- intros [Hr | ([<- | Hr] & (b & Hb & R))]; [auto | | eauto 8].
           rewrite B0 in Hb. injection Hb as <-. congruence.
    + intros H r. rewrite (IH _ H r). split.
      * intros [Hr | (Hr & R)]; auto.
      * intros [Hr | ([<- | Hr] & (b & Hb & R))]; [auto | | eauto 8].
        congruence.
Qed.

(** A record whose birthday makes the loop body raise makes the loop
    raise, unless an earlier record already did. *)
Lemma upcoming_loop_raises today days rs acc record b msg :
  In record rs -> birthday record = Some b ->
  is_upcoming today days b = Raise (ValueError msg) ->
  exists msg', upcoming_loop today days rs acc = Raise (ValueError msg').
Proof.
  intros Hin Hb Hr. revert acc.
  induction rs as [|r0 rs IH]; intros acc; [contradiction|]. simpl.
  destruct Hin as [-> | Hin].
  - rewrite Hb, Hr. simpl. eauto.
  - destruct (birthday r0) as [b0|]; [|now apply IH].
    destruct (is_upcoming today days b0) as [yes|e] eqn:U; simpl.
    + now apply IH.
    + destruct (is_upcoming_raises _ _ _ _ U) as [m ->]. eauto.
Qed.

(** [replace(year=...)] of 29 February in a year that is not a leap year. *)
Lemma replace_year_29_February t y :
  Datetime.month t = 2 -> Datetime.day t = 29 ->
  Datetime.is_leap y = false ->
  exists msg, Datetime.replace_year t y = Raise (ValueError msg).
Proof.
  intros Hm Hd Hl. unfold Datetime.replace_year, Datetime.new.
  rewrite Hm, Hd. destruct (negb (Datetime.between _ y _)); [eauto|].
  unfold Datetime.days_in_month. rewrite Hl. simpl. eauto.
Qed.

(** C4, as the code has it: with a record whose birthday is 29 February in
    the book and the clock in a year that is not a leap year,
    [get_upcoming_birthdays] raises [ValueError] and returns no list. *)
Theorem get_upcoming_birthdays_29_February
        (book : AddressBook) (today : Datetime.datetime) (days : Z)
        (record : Record_) (b : Field Datetime.datetime) :
  In record (Dict.values (records book)) ->
  birthday record = Some b ->
  Datetime.month (value b) = 2 -> Datetime.day (value b) = 29 ->
  Datetime.is_leap (Datetime.year today) = false ->
  exists msg,
    get_upcoming_birthdays today days book = (Raise (ValueError msg), book).
Proof.
  intros Hin Hb Hm Hd Hl.
  destruct (replace_year_29_February (value b) _ Hm Hd Hl) as [msg R].
  assert (U : is_upcoming today days b = Raise (ValueError msg))
    by (unfold is_upcoming; now rewrite R).
  destruct (upcoming_loop_raises today days _ [] record b msg Hin Hb U)
    as [msg' L].
  exists msg'. unfold get_upcoming_birthdays, bind, get, lift. now rewrite L.
Qed.

(** The theorem at the book that holds Eve, born on 29.02.2000, the clock
    reading noon of 10.03.2023. *)
Lemma get_upcoming_birthdays_29_February_witness :
  let eve :=
    mk_Record (Name (u "Eve")) [] (Some (mk_Field (Spec.midnight 29 2 2000))) in
  let book := snd (add_record eve AddressBook_init) in
  let today := Datetime.mk_datetime 2023 3 10 12 0 0 0 in
  Record_init (u "Eve") None (Some (u "29.02.2000")) = Ok eve
  /\ Datetime.valid today = true
  /\ (exists msg,
         get_upcoming_birthdays today 7 book = (Raise (ValueError msg), book))
  /\ fst (get_upcoming_birthdays today 7 book)
     = Raise (ValueError "day is out of range for month").
Proof.
  cbv zeta. split; [reflexivity|]. split; [reflexivity|]. split.
  - apply (get_upcoming_birthdays_29_February _ _ _
             (mk_Record (Name (u "Eve")) []
                        (Some (mk_Field (Spec.midnight 29 2 2000))))
             (mk_Field (Spec.midnight 29 2 2000)));
      [left; reflexivity | reflexivity ..].
  - reflexivity.
Defined.

(** In a leap year the same book fails as well once 29 February is over:
    the roll to the next year raises. *)
Example get_upcoming_birthdays_29_February_leap_year :
  let eve :=
    mk_Record (Name (u "Eve")) [] (Some (mk_Field (Spec.midnight 29 2 2000))) in
  fst (get_upcoming_birthdays (Datetime.mk_datetime 2024 3 10 12 0 0 0) 7
         (snd (add_record eve AddressBook_init)))
  = Raise (ValueError "day is out of range for month").
Proof. reflexivity. Qed.

(** From a date to the same month and day of the next year there are 365
    or 366 days. *)
Lemma ymd2ord_next_year (y m d : Z) :
  365 <= Datetime.ymd2ord (y + 1) m d - Datetime.ymd2ord y m d <= 366.
Proof.
  unfold Datetime.ymd2ord, Datetime.days_before_year,
    Datetime.days_before_month, Datetime.is_leap.
  repeat match goal with
         | |- context [?a =? ?b] => destruct (Z.eqb_spec a b)
         end;
    destruct (2 <? m); simpl; Z.div_mod_to_equations; lia.
Qed.

(** Midnight of a day is before every later reading of the clock on that
    day; the rest of the day is then less than a day. *)
Lemma after_midnight (today : Datetime.datetime) :
  Datetime.valid today = true ->
  Datetime.ltb (Spec.midnight (Datetime.day today) (Datetime.month today)
                              (Datetime.year today)) today = true ->
  0 < ((Datetime.second today + Datetime.minute today * 60
        + Datetime.hour today * 3600) * 1000000
       + Datetime.microsecond today).
Proof.
  intros V. apply valid_bounds in V.
  destruct today as [y m d hh mm ss us]. simpl in V.
  unfold Datetime.ltb, Spec.midnight. simpl. rewrite !Z.compare_refl.
  destruct hh; [|lia|lia]. destruct mm; [|lia|lia].
  destruct ss; [|lia|lia]. destruct us; [discriminate|lia|lia].
Qed.

(** The loop body when the birthday is today and midnight is over: the
    birthday is rolled to the next year. *)
Lemma is_upcoming_birthday_today today days (b : Field Datetime.datetime) :
  Datetime.valid today = true ->
  Datetime.ltb (Spec.midnight (Datetime.day today) (Datetime.month today)
                              (Datetime.year today)) today = true ->
  Datetime.year today < 9999 ->
  Datetime.month (value b) = Datetime.month today ->
  Datetime.day (value b) = Datetime.day today ->
  Datetime.hour (value b) = 0 -> Datetime.minute (value b) = 0 ->
  Datetime.second (value b) = 0 -> Datetime.microsecond (value b) = 0 ->
  ~ (Datetime.month today = 2 /\ Datetime.day today = 29) ->
  days <= 364 ->
  is_upcoming today days b = Ok false.
Proof.
  intros V L Hy Hm Hd Hh Hmi Hs Hu N29 Hdays.
  pose proof (after_midnight today V L) as Pos.
  pose proof (valid_bounds today V) as B.
  destruct B as (By & Bm & Bd & _ & Bh & Bmi & Bs & Bu).
  unfold is_upcoming, Datetime.replace_year.
  rewrite Hm, Hd, Hh, Hmi, Hs, Hu.
  assert (N1 : Datetime.new (Datetime.year today) (Datetime.month today)
                 (Datetime.day today) 0 0 0 0
               = Ok (Spec.midnight (Datetime.day today) (Datetime.month today)
                                   (Datetime.year today))).
  { apply new_Ok_iff. split; [reflexivity|].
    unfold Datetime.valid, Spec.midnight, Datetime.between,
      Datetime.MINYEAR, Datetime.MAXYEAR. simpl.
    rewrite !andb_true_iff, !Z.leb_le. lia. }
  rewrite N1. cbn [rbind]. rewrite L.
  assert (N2 : Datetime.new (Datetime.year today + 1) (Datetime.month today)
                 (Datetime.day today) 0 0 0 0
               = Ok (Spec.midnight (Datetime.day today) (Datetime.month today)
                                   (Datetime.year today + 1))).
  { apply new_Ok_iff. split; [reflexivity|].
    assert (Datetime.day today
            <= Datetime.days_in_month (Datetime.year today + 1)
                                      (Datetime.month today)).
    { revert Bd N29. unfold Datetime.days_in_month.
      destruct (Datetime.month today =? 2) eqn:E2; simpl.
      - apply Z.eqb_eq in E2. rewrite E2.
        destruct (Datetime.is_leap _), (Datetime.is_leap _); simpl; lia.
      - lia. }
    unfold Datetime.valid, Spec.midnight, Datetime.between,
      Datetime.MINYEAR, Datetime.MAXYEAR. simpl.
    rewrite !andb_true_iff, !Z.leb_le. lia. }
  cbn [Spec.midnight Datetime.month Datetime.day Datetime.hour
       Datetime.minute Datetime.second Datetime.microsecond].
  rewrite N2. cbn [rbind]. do 2 f_equal.
  pose proof (ymd2ord_next_year (Datetime.year today) (Datetime.month today)
                                (Datetime.day today)) as D.
  unfold Datetime.sub, Datetime.timedelta_new, Datetime.toordinal,
    Spec.midnight.
  cbn [Datetime.days Datetime.year Datetime.month Datetime.day Datetime.hour
       Datetime.minute Datetime.second Datetime.microsecond].
  apply andb_false_iff. right. apply Z.ltb_ge.
  Z.div_mod_to_equations. lia.
Qed.

(** C1, where the code leaves it: the birthday falls on the current day
    and the clock is past midnight. In the words of the specification the
    gap is 0 and the record is included; the code rolls the birthday to the
    next year and leaves the record out of every list it returns. *)
Theorem birthday_today_is_left_out
        (book : AddressBook) (today : Datetime.datetime) (days : Z)
        (record : Record_) (b : Field Datetime.datetime) :
  Datetime.valid today = true ->
  Datetime.ltb (Spec.midnight (Datetime.day today) (Datetime.month today)
                              (Datetime.year today)) today = true ->
  Datetime.year today < 9999 ->
  birthday record = Some b ->
  Datetime.month (value b) = Datetime.month today ->
  Datetime.day (value b) = Datetime.day today ->
  Datetime.hour (value b) = 0 -> Datetime.minute (value b) = 0 ->
  Datetime.second (value b) = 0 -> Datetime.microsecond (value b) = 0 ->
  ~ (Datetime.month today = 2 /\ Datetime.day today = 29) ->
  0 < days <= 364 ->
  Spec.gap today (value b) = 0
  /\ Spec.upcoming today days (value b) = true
  /\ is_upcoming today days b = Ok false
  /\ forall l,
       fst (get_upcoming_birthdays today days book) = Ok l -> ~ In record l.
Proof.
  intros V L Hy Hb Hm Hd Hh Hmi Hs Hu N29 Hdays.
  assert (G : Spec.gap today (value b) = 0).
  { unfold Spec.gap, Spec.next_occurrence, Datetime.toordinal.
    rewrite Hm, Hd, Z.ltb_irrefl. lia. }
  assert (U : is_upcoming today days b = Ok false)
    by (apply is_upcoming_birthday_today; auto; lia).
  split; [exact G|]. split; [|split; [exact U|]].
  - unfold Spec.upcoming. rewrite G. apply andb_true_iff.
    split; [reflexivity | apply Z.ltb_lt; lia].
  - intros l R Hin. unfold get_upcoming_birthdays, bind, get, lift in R.
    simpl in R.
    apply (upcoming_loop_In _ _ _ _ _ R) in Hin.
    destruct Hin as [[] | (_ & b' & Hb' & U')].
    rewrite Hb in Hb'. injection Hb' as <-. congruence.
Qed.

(** The theorem at Bob, born on 10.03.1990, the clock reading ten in the
    morning of 10.03.2024 and the window being of 7 days: nobody is
    upcoming. *)
Lemma birthday_today_is_left_out_witness :
  let bob :=
    mk_Record (Name (u "Bob")) [] (Some (mk_Field (Spec.midnight 10 3 1990))) in
  let book := snd (add_record bob AddressBook_init) in
  let today := Datetime.mk_datetime 2024 3 10 10 0 0 0 in
  Record_init (u "Bob") None (Some (u "10.03.1990")) = Ok bob
  /\ Datetime.valid today = true
  /\ Spec.upcoming today 7 (Spec.midnight 10 3 1990) = true
  /\ get_upcoming_birthdays today 7 book = (Ok [], book).
Proof.
  cbv zeta. split; [reflexivity|]. split; [reflexivity|].
  assert (H := birthday_today_is_left_out
                 (snd (add_record
                         (mk_Record (Name (u "Bob")) []
                            (Some (mk_Field (Spec.midnight 10 3 1990))))
                         AddressBook_init))
                 (Datetime.mk_datetime 2024 3 10 10 0 0 0) 7
                 (mk_Record (Name (u "Bob")) []
                    (Some (mk_Field (Spec.midnight 10 3 1990))))
                 (mk_Field (Spec.midnight 10 3 1990))).
  destruct H as (_ & H2 & _ & _); try reflexivity.
  - simpl. intros [H _]. discriminate H.
  - lia.
  - split; [exact H2 | reflexivity].
Defined.

(** With the clock past midnight the gap the code computes is one less
    than the gap in days: Bob, born on 15.03.1990, is upcoming within 7
    days on 08.03.2024 at ten, seven days ahead; the clock at midnight, he
    is not. *)
Example gap_is_cut_by_the_time_of_day :
  let bob :=
    mk_Record (Name (u "Bob")) [] (Some (mk_Field (Spec.midnight 15 3 1990))) in
  let book := snd (add_record bob AddressBook_init) in
  Spec.gap (Datetime.mk_datetime 2024 3 8 10 0 0 0) (Spec.midnight 15 3 1990) = 7
  /\ get_upcoming_birthdays (Datetime.mk_datetime 2024 3 8 10 0 0 0) 7 book
     = (Ok [bob], book)
  /\ get_upcoming_birthdays (Datetime.mk_datetime 2024 3 8 0 0 0 0) 7 book
     = (Ok [], book).
Proof. vm_compute. auto. Qed.

(** The scenario of the specification: Bob, born on 15.03.1990, is
    upcoming within 7 days on 10.03.2024, and not on 20.03.2024. *)
Example Bob_scenario :
  let bob :=
    mk_Record (Name (u "Bob")) [] (Some (mk_Field (Spec.midnight 15 3 1990))) in
  let book := snd (add_record bob AddressBook_init) in
  get_upcoming_birthdays (Datetime.mk_datetime 2024 3 10 0 0 0 0) 7 book
  = (Ok [bob], book)
  /\ get_upcoming_birthdays (Datetime.mk_datetime 2024 3 10 18 30 0 0) 7 book
     = (Ok [bob], book)
  /\ get_upcoming_birthdays (Datetime.mk_datetime 2024 3 20 0 0 0 0) 7 book
     = (Ok [], book).
Proof. vm_compute. auto. Qed.

(** Within a year the order of the dates at midnight is the order of
    their day numbers. *)
Lemma same_year_order (y m1 d1 m2 d2 : Z) :
  1 <= m1 <= 12 -> 1 <= m2 <= 12 ->
  1 <= d1 <= Datetime.days_in_month y m1 ->
  1 <= d2 <= Datetime.days_in_month y m2 ->
  Datetime.ltb (Spec.midnight d1 m1 y) (Spec.midnight d2 m2 y)
  = (Datetime.ymd2ord y m1 d1 <? Datetime.ymd2ord y m2 d2).
Proof.
  intros M1 M2.
  assert (C1 : m1 = 1 \/ m1 = 2 \/ m1 = 3 \/ m1 = 4 \/ m1 = 5 \/ m1 = 6
               \/ m1 = 7 \/ m1 = 8 \/ m1 = 9 \/ m1 = 10 \/ m1 = 11 \/ m1 = 12)
    by lia.
  assert (C2 : m2 = 1 \/ m2 = 2 \/ m2 = 3 \/ m2 = 4 \/ m2 = 5 \/ m2 = 6
               \/ m2 = 7 \/ m2 = 8 \/ m2 = 9 \/ m2 = 10 \/ m2 = 11 \/ m2 = 12)
    by lia.
  clear M1 M2.
  unfold Datetime.ltb, Spec.midnight, Datetime.ymd2ord,
    Datetime.days_before_month, Datetime.days_in_month.
  cbn [Datetime.fields Datetime.cmp_fields Datetime.year Datetime.month
       Datetime.day Datetime.hour Datetime.minute Datetime.second
       Datetime.microsecond].
  rewrite Z.compare_refl.
  decompose [or] C1; decompose [or] C2; subst; clear C1 C2;
    destruct (Datetime.is_leap y); simpl; intros D1 D2;
    match goal with
    | |- _ = (?a <? ?b) => destruct (Z.ltb_spec a b)
    end;
    try (destruct (Z.compare_spec d1 d2));
    first [reflexivity | lia].
Qed.

(** The clock reading midnight, the test of the loop body is the test of
    the specification whenever the loop body returns. *)
Lemma is_upcoming_at_midnight today days (b : Field Datetime.datetime) yes :
  Datetime.valid today = true ->
  Datetime.hour today = 0 -> Datetime.minute today = 0 ->
  Datetime.second today = 0 -> Datetime.microsecond today = 0 ->
  Datetime.hour (value b) = 0 -> Datetime.minute (value b) = 0 ->
  Datetime.second (value b) = 0 -> Datetime.microsecond (value b) = 0 ->
  is_upcoming today days b = Ok yes ->
  yes = Spec.upcoming today days (value b).
Proof.
  intros V Th Tm Ts Tu Bh Bm Bs Bu.
  pose proof (valid_bounds today V) as (Vy & Vm & Vd & _).
  destruct today as [y m d hh mm ss us]. simpl in *. subst hh mm ss us.
  destruct b as [[yb mb db hb mib sb ub]]. simpl in *. subst hb mib sb ub.
  unfold is_upcoming, Datetime.replace_year. simpl.
  destruct (Datetime.new y mb db 0 0 0 0) as [n1|] eqn:N1; [|discriminate].
  apply new_Ok_iff in N1 as [-> V1].
  pose proof (valid_bounds _ V1) as (_ & V1m & V1d & _). simpl in V1m, V1d.
  cbn [rbind].
  change (Datetime.mk_datetime y mb db 0 0 0 0) with (Spec.midnight db mb y).
  change (Datetime.mk_datetime y m d 0 0 0 0) with (Spec.midnight d m y).
  rewrite same_year_order by assumption.
  unfold Spec.upcoming, Spec.gap, Spec.next_occurrence, Datetime.toordinal.
  simpl.
  destruct (Datetime.ymd2ord y mb db <? Datetime.ymd2ord y m d).
  - destruct (Datetime.new (y + 1) mb db 0 0 0 0) as [n2|] eqn:N2;
      [|discriminate].
    apply new_Ok_iff in N2 as [-> _]. cbn [rbind]. intros [= <-].
    unfold Datetime.sub, Datetime.timedelta_new, Datetime.toordinal. simpl.
    now rewrite !Z.add_0_r.
  - cbn [rbind]. intros [= <-].
    unfold Datetime.sub, Datetime.timedelta_new, Datetime.toordinal. simpl.
    now rewrite !Z.add_0_r.
Qed.

(** C10: [find_record], [list_records] and [get_upcoming_birthdays] leave
    the book as it is, also when [get_upcoming_birthdays] raises;
    [find_record] returns what the dict holds under the name,
    [list_records] the records of the book in the order of the dict, and
    [get_upcoming_birthdays], when it returns, records of the book. *)
Theorem queries_leave_the_book (book : AddressBook) (name_ : str)
        (today : Datetime.datetime) (days : Z) :
  find_record name_ book = (Ok (Dict.get_ (records book) name_), book)
  /\ list_records book = (Ok (Dict.values (records book)), book)
  /\ snd (get_upcoming_birthdays today days book) = book
  /\ (forall l,
         fst (get_upcoming_birthdays today days book) = Ok l ->
         forall r, In r l -> In r (Dict.values (records book))).
Proof.
  split; [reflexivity|]. split; [reflexivity|]. split; [reflexivity|].
  intros l H r Hr. unfold get_upcoming_birthdays, bind, get, lift in H.
  simpl in H. apply (upcoming_loop_In _ _ _ _ _ H) in Hr.
  destruct Hr as [[] | [Hr _]]. exact Hr.
Qed.

(* ================================================================= *)
(** ** More on Record *)

Lemma comprehension_Phone (l : list str) :
  comprehension Phone l
  = if forallb validate l then Ok (map mk_Field l)
    else Raise (ValueError "Invalid phone number. Must be 10 digits.").
Proof.
  induction l as [|p l IH]; simpl; [reflexivity|].
  unfold Phone at 1. destruct (validate p); simpl; [|reflexivity].
  rewrite IH. now destruct (forallb validate l).
Qed.

(** [Record(name, phones, birthday)]: the phones are validated first, all
    of them and in their order, then the birthday; [None] and the empty
    list give no phones, [None] and the empty string no birthday; the
    record holds the phones in the order given. *)
Theorem Record_init_validates_then_stores
        (name_ : str) (phones_ : option (list str)) (birthday_ : option str) :
  Record_init name_ phones_ birthday_
  = if forallb validate (match phones_ with Some l => l | None => [] end)
    then
      match birthday_ with
      | None | Some [] =>
          Ok (mk_Record (Name name_)
                (map mk_Field (match phones_ with Some l => l | None => [] end))
                None)
      | Some s =>
          match Birthday s with
          | Ok b =>
              Ok (mk_Record (Name name_)
                    (map mk_Field
                         (match phones_ with Some l => l | None => [] end))
                    (Some b))
          | Raise e => Raise e
          end
      end
    else Raise (ValueError "Invalid phone number. Must be 10 digits.").
Proof.
  unfold Record_init.
  assert (P : match phones_ with
              | Some (p :: l) => comprehension Phone (p :: l)
              | _ => Ok []
              end
              = comprehension Phone
                  (match phones_ with Some l => l | None => [] end))
    by (destruct phones_ as [[|p l]|]; reflexivity).
  rewrite P, comprehension_Phone.
  destruct (forallb validate _); [|reflexivity]. cbn [rbind].
  destruct birthday_ as [[|c s]|]; try reflexivity.
  now destruct (Birthday (c :: s)).
Qed.

Lemma edit_loop_valid old_phone new_phone ps :
  validate new_phone = true ->
  Forall (fun p => validate (value p) = true) ps ->
  Forall (fun p => validate (value p) = true)
         (edit_loop old_phone new_phone ps).
Proof.
  intros Hn. induction 1 as [|p ps Hp Hps IH]; simpl; [constructor|].
  destruct (str_eqb (value p) old_phone); constructor; auto.
Qed.

(** The phones of a record stay valid under [add_phone], [remove_phone]
    and [add_birthday], whether they raise or not, and under [edit_phone]
    when the new value is valid. *)
Theorem record_methods_keep_phones_valid
        (self : Record_) (v s old_phone new_phone : str) :
  phones_valid self ->
  phones_valid (snd (add_phone v self))
  /\ phones_valid (snd (remove_phone v self))
  /\ phones_valid (snd (add_birthday s self))
  /\ (validate new_phone = true ->
      phones_valid (snd (edit_phone old_phone new_phone self))).
Proof.
  unfold phones_valid. intros H. split; [|split; [|split]].
  - unfold add_phone, bind, get, lift, put, Phone.
    destruct (validate v) eqn:E; simpl; [|assumption].
    apply Forall_app. split; [assumption|]. constructor; auto.
  - destruct (first_match_split (phones self) v)
      as [Hno | (l1 & p & l2 & E & Hl1 & Hp)].
    + now rewrite remove_phone_absent.
    + rewrite (remove_phone_first self v l1 p l2) by assumption. simpl.
      rewrite E in H. apply Forall_app in H as [H1 H2].
      apply Forall_app. split; [assumption|]. now inversion H2.
  - unfold add_birthday, bind, get, lift, put.
    destruct (Birthday s); simpl; assumption.
  - intros Hn. simpl. now apply edit_loop_valid.
Qed.

Lemma record_methods_keep_phones_valid_witness :
  let self := mk_Record (Name (u "Ann")) [mk_Field (u "0501234567")] None in
  phones_valid self
  /\ phones_valid (snd (add_phone (u "0677654321") self))
  /\ phones_valid (snd (remove_phone (u "0501234567") self)).
Proof.
  cbv zeta.
  assert (V : phones_valid
                (mk_Record (Name (u "Ann")) [mk_Field (u "0501234567")] None))
    by (repeat constructor).
  destruct (record_methods_keep_phones_valid _ (u "0677654321") [] [] [] V)
    as (H1 & _).
  destruct (record_methods_keep_phones_valid _ (u "0501234567") [] [] [] V)
    as (_ & H2 & _).
  auto.
Defined.

(** [edit_phone] with a value that is no valid phone, on a record that
    holds the old value: the record then holds a phone that [Phone] would
    refuse. *)
Theorem edit_phone_stores_invalid
        (self : Record_) (old_phone new_phone : str) :
  validate new_phone = false ->
  In old_phone (map value (phones self)) ->
  In new_phone (map value (phones (snd (edit_phone old_phone new_phone self))))
  /\ ~ phones_valid (snd (edit_phone old_phone new_phone self))
  /\ Phone new_phone
     = Raise (ValueError "Invalid phone number. Must be 10 digits.").
Proof.
  intros Hn Hin.
  destruct (first_match_split (phones self) old_phone)
    as [Hno | (l1 & p & l2 & E & Hl1 & Hp)].
  - exfalso. apply in_map_iff in Hin as (p & Hp & Hin). now apply (Hno p).
  - assert (R : phones (snd (edit_phone old_phone new_phone self))
                = l1 ++ mk_Field new_phone :: l2)
      by (simpl; rewrite E; now apply edit_loop_first).
    split; [|split].
    + rewrite R, map_app, in_app_iff. right. now left.
    + unfold phones_valid. rewrite R. intros F.
      apply Forall_app in F as [_ F]. inversion F as [|? ? Hv _]; subst.
      simpl in Hv. congruence.
    + unfold Phone. now rewrite Hn.
Qed.

Lemma edit_phone_stores_invalid_witness :
  let self := mk_Record (Name (u "Ann")) [mk_Field (u "0501234567")] None in
  phones_valid self
  /\ map value (phones (snd (edit_phone (u "0501234567") (u "none") self)))
     = [u "none"]
  /\ In (u "none")
        (map value (phones (snd (edit_phone (u "0501234567") (u "none") self)))).
Proof.
  cbv zeta. split; [repeat constructor|]. split; [reflexivity|].
  destruct (edit_phone_stores_invalid
              (mk_Record (Name (u "Ann")) [mk_Field (u "0501234567")] None)
              (u "0501234567") (u "none") eq_refl (or_introl eq_refl))
    as (H & _). exact H.
Defined.

Lemma edit_loop_back old_phone new_phone ps :
  (forall p, In p ps -> value p <> new_phone) ->
  edit_loop new_phone old_phone (edit_loop old_phone new_phone ps) = ps.
Proof.
  induction ps as [|p ps IH]; simpl; [reflexivity|]. intros H.
  str_cases (value p) old_phone; simpl.
  - rewrite str_eqb_refl. rewrite <- E. now rewrite Field_eta.
  - rewrite str_eqb_neq by (apply H; auto). rewrite IH; auto.
Qed.

(** [edit_phone(old, new)] then [edit_phone(new, old)] gives the record
    back when no phone had the value [new]. *)
Theorem edit_phone_and_back (self : Record_) (old_phone new_phone : str) :
  (forall p, In p (phones self) -> value p <> new_phone) ->
  (edit_phone old_phone new_phone ;; edit_phone new_phone old_phone)%py self
  = (Ok tt, self).
Proof.
  intros H. unfold edit_phone, bind, get, put, set_phones. simpl.
  rewrite edit_loop_back by assumption. now rewrite Record_eta.
Qed.

Lemma edit_phone_and_back_witness :
  let self := mk_Record (Name (u "Ann"))
                [mk_Field (u "0501234567"); mk_Field (u "0677654321")] None in
  (edit_phone (u "0677654321") (u "0990000000") ;;
   edit_phone (u "0990000000") (u "0677654321"))%py self
  = (Ok tt, self).
Proof.
  cbv zeta. apply edit_phone_and_back.
  intros p [<- | [<- | []]]; simpl; discriminate.
Defined.

(** [remove_phone(v)] never raises; it takes one phone of value [v] away
    when there is one, and leaves the number of phones of every other
    value. *)
Theorem remove_phone_removes_one (self : Record_) (v w : str) :
  fst (remove_phone v self) = Ok tt
  /\ name (snd (remove_phone v self)) = name self
  /\ birthday (snd (remove_phone v self)) = birthday self
  /\ count_occ str_eq_dec (map value (phones (snd (remove_phone v self)))) w
     = if str_eq_dec w v
       then pred (count_occ str_eq_dec (map value (phones self)) w)
       else count_occ str_eq_dec (map value (phones self)) w.
Proof.
  destruct (first_match_split (phones self) v)
    as [Hno | (l1 & p & l2 & E & Hl1 & Hp)].
  - rewrite remove_phone_absent by assumption. simpl.
    repeat (split; [reflexivity|]).
    destruct (str_eq_dec w v) as [-> | Hne]; [|reflexivity].
    assert (Z0 : count_occ str_eq_dec (map value (phones self)) v = 0%nat).
    { apply count_occ_not_In. intros Hin.
      apply in_map_iff in Hin as (p & Hp & Hin). now apply (Hno p). }
    now rewrite Z0.
  - rewrite (remove_phone_first self v l1 p l2) by assumption. simpl.
    repeat (split; [reflexivity|]).
    rewrite E, !map_app, !count_occ_app. simpl. rewrite Hp.
    destruct (str_eq_dec w v) as [-> | Hne].
    + destruct (str_eq_dec v v) as [_|C]; [|contradiction].
      rewrite Nat.add_succ_r. reflexivity.
    + destruct (str_eq_dec v w) as [C|_]; [symmetry in C; contradiction|].
      reflexivity.
Qed.

(* ================================================================= *)
(** ** More on AddressBook *)

Lemma setitem_setitem {V} (d : Dict.dict V) k v1 v2 :
  Dict.setitem (Dict.setitem d k v1) k v2 = Dict.setitem d k v2.
Proof.
  induction d as [|[k0 v0] d IH]; simpl.
  - now rewrite str_eqb_refl.
  - destruct (str_eqb k0 k) eqn:E; simpl; rewrite E; [reflexivity|].
    now rewrite IH.
Qed.

Lemma delitem_setitem_new {V} (d : Dict.dict V) k v :
  Dict.contains d k = false ->
  Dict.delitem (Dict.setitem d k v) k = Ok d.
Proof.
  unfold Dict.contains. induction d as [|[k0 v0] d IH]; simpl.
  - now rewrite str_eqb_refl.
  - destruct (str_eqb k0 k) eqn:E; [discriminate|]. intros H.
    simpl. rewrite E, IH by assumption. reflexivity.
Qed.

Lemma contains_setitem {V} (d : Dict.dict V) k v :
  Dict.contains (Dict.setitem d k v) k = true.
Proof. unfold Dict.contains. now rewrite get_setitem_same. Qed.

Lemma setitem_same {V} (d : Dict.dict V) k v :
  Dict.get_ d k = Some v -> Dict.setitem d k v = d.
Proof.
  induction d as [|[k0 v0] d IH]; simpl; [discriminate|].
  destruct (str_eqb k0 k) eqn:E.
  - intros [= ->]. reflexivity.
  - intros H. now rewrite IH.
Qed.

(** [add_record] of a record under a new name, then [remove_record] of
    that name, gives the book back. *)
Theorem add_record_then_remove_record (book : AddressBook) (record : Record_) :
  Dict.contains (records book) (value (name record)) = false ->
  (add_record record ;; remove_record (value (name record)))%py book
  = (Ok tt, book).
Proof.
  intros H. unfold add_record, remove_record, bind, get, put, lift.
  cbn [records]. rewrite contains_setitem.
  rewrite delitem_setitem_new by assumption. now destruct book.
Qed.

Lemma add_record_then_remove_record_witness :
  let alice := mk_Record (Name (u "Alice")) [mk_Field (u "0501234567")] None in
  let bob := mk_Record (Name (u "Bob")) [] None in
  let book := snd (add_record alice AddressBook_init) in
  (add_record bob ;; remove_record (u "Bob"))%py book = (Ok tt, book).
Proof.
  cbv zeta.
  apply (add_record_then_remove_record
           (snd (add_record
                   (mk_Record (Name (u "Alice")) [mk_Field (u "0501234567")]
                              None) AddressBook_init))
           (mk_Record (Name (u "Bob")) [] None)).
  reflexivity.
Defined.

(** Of two [add_record] under one name the second alone counts: the book
    is the one the second call alone would give, the place of the name
    among the keys included. *)
Theorem add_record_twice (book : AddressBook) (r1 r2 : Record_) :
  value (name r1) = value (name r2) ->
  (add_record r1 ;; add_record r2)%py book = add_record r2 book.
Proof.
  intros H. unfold add_record, bind, get, put. cbn [records].
  now rewrite H, setitem_setitem.
Qed.

Lemma add_record_twice_witness :
  let r1 := mk_Record (Name (u "Bob")) [mk_Field (u "0501234567")] None in
  let r2 := mk_Record (Name (u "Bob")) [] None in
  (add_record r1 ;; add_record r2)%py AddressBook_init
  = add_record r2 AddressBook_init.
Proof.
  cbv zeta.
  apply (add_record_twice AddressBook_init
           (mk_Record (Name (u "Bob")) [mk_Field (u "0501234567")] None)
           (mk_Record (Name (u "Bob")) [] None)).
  reflexivity.
Defined.

Lemma setitem_Forall {V} (P : str * V -> Prop) (d : Dict.dict V) k v :
  Forall P d -> P (k, v) -> Forall P (Dict.setitem d k v).
Proof.
  intros Hd Hp. induction Hd as [|[k0 v0] d H0 Hd IH]; simpl.
  - repeat constructor; assumption.
  - str_cases k0 k; constructor; auto. now subst.
Qed.

Lemma keyed_by_name_add (book : AddressBook) (record : Record_) :
  keyed_by_name book -> keyed_by_name (snd (add_record record book)).
Proof.
  intros H. unfold keyed_by_name. simpl. now apply setitem_Forall.
Qed.

Lemma remove_record_Forall (P : str * Record_ -> Prop)
      (book : AddressBook) (name_ : str) :
  Forall P (records book) ->
  Forall P (records (snd (remove_record name_ book))).
Proof.
  intros H. destruct (Dict.contains (records book) name_) eqn:Hc.
  - destruct (remove_record_present _ _ Hc) as (d1 & v & d2 & E & _ & ->).
    simpl. rewrite E in H. apply Forall_app in H as [H1 H2].
    apply Forall_app. split; [assumption|]. now inversion H2.
  - now rewrite remove_record_absent.
Qed.

(** Whatever [add_record] and [remove_record] calls are made on the empty
    book, no name is held twice, every record is held under its own name,
    and [find_record] returns a record only for the name of the record. *)
Theorem reachable_books_are_keyed (ops : list book_op) :
  Dict.dict_wf (records (run_ops ops AddressBook_init))
  /\ keyed_by_name (run_ops ops AddressBook_init)
  /\ (forall name_ record,
         fst (find_record name_ (run_ops ops AddressBook_init))
         = Ok (Some record) ->
         value (name record) = name_).
Proof.
  assert (G : forall book,
             Dict.dict_wf (records book) /\ keyed_by_name book ->
             Dict.dict_wf (records (run_ops ops book))
             /\ keyed_by_name (run_ops ops book)).
  { unfold run_ops. induction ops as [|op ops IH]; intros book [W K];
      simpl; [auto|].
    apply IH. destruct op as [record|name_]; simpl run_op.
    - split; [now apply add_record_wf | now apply keyed_by_name_add].
    - split; [now apply remove_record_wf|].
      now apply remove_record_Forall. }
  destruct (G AddressBook_init) as [W K].
  { split; [apply AddressBook_init_wf | constructor]. }
  split; [exact W|]. split; [exact K|].
  intros name_ record. simpl. intros [= H].
  unfold keyed_by_name in K. revert H K.
  generalize (records (run_ops ops AddressBook_init)). intros d.
  induction d as [|[k0 v0] d IH]; simpl; [discriminate|].
  intros H K. inversion K as [|? ? K0 K']; subst. simpl in K0.
  str_cases k0 name_.
  - injection H as <-. now subst.
  - auto.
Qed.

(* ================================================================= *)
(** ** More on get_upcoming_birthdays *)

Lemma is_upcoming_next today days b :
  is_upcoming today days b
  = (n <-r next_birthday today b ;;
     Ok ((0 <=? Datetime.days (Datetime.sub n today))
         && (Datetime.days (Datetime.sub n today) <? days)))%py.
Proof.
  unfold is_upcoming, next_birthday.
  destruct (Datetime.replace_year (value b) _) as [n|e]; [|reflexivity].
  reflexivity.
Qed.

Lemma upcoming_loop_filter today days rs acc l :
  upcoming_loop today days rs acc = Ok l ->
  l = acc ++ filter (upcoming_test today days) rs.
Proof.
  revert acc. induction rs as [|r rs IH]; intros acc; simpl.
  - intros [= <-]. now rewrite app_nil_r.
  - unfold upcoming_test at 1. destruct (birthday r) as [b|].
    + destruct (is_upcoming today days b) as [[|]|e]; simpl;
        [| |discriminate]; intros H; rewrite (IH _ H).
      * now rewrite <- app_assoc.
      * reflexivity.
    + apply IH.
Qed.

Lemma get_upcoming_birthdays_Ok today days book l :
  fst (get_upcoming_birthdays today days book) = Ok l ->
  upcoming_loop today days (Dict.values (records book)) [] = Ok l.
Proof. intros H. exact H. Qed.

(** When [get_upcoming_birthdays] returns, it returns the records that
    pass the test of the loop, in the order of the book and as often as the
    book holds them; each of them has a birthday. *)
Theorem get_upcoming_birthdays_in_book_order
        (today : Datetime.datetime) (days : Z) (book : AddressBook)
        (l : list Record_) :
  fst (get_upcoming_birthdays today days book) = Ok l ->
  l = filter (upcoming_test today days) (Dict.values (records book))
  /\ (forall r, In r l -> exists b, birthday r = Some b).
Proof.
  intros H. apply get_upcoming_birthdays_Ok, upcoming_loop_filter in H.
  simpl in H. split; [exact H|]. intros r Hr. rewrite H in Hr.
  apply filter_In in Hr as [_ T]. unfold upcoming_test in T.
  destruct (birthday r) as [b|]; [eauto | discriminate].
Qed.

Lemma get_upcoming_birthdays_in_book_order_witness :
  let ann := mk_Record (Name (u "Ann")) [] None in
  let bob :=
    mk_Record (Name (u "Bob")) [] (Some (mk_Field (Spec.midnight 15 3 1990))) in
  let eve :=
    mk_Record (Name (u "Eve")) [] (Some (mk_Field (Spec.midnight 12 3 2001))) in
  let book :=
    snd ((add_record eve ;; add_record ann ;; add_record bob)%py
           AddressBook_init) in
  let today := Datetime.mk_datetime 2024 3 10 9 30 0 0 in
  fst (get_upcoming_birthdays today 7 book) = Ok [eve; bob]
  /\ [eve; bob] = filter (upcoming_test today 7) (Dict.values (records book)).
Proof.
  cbv zeta. split; [reflexivity|].
  eapply get_upcoming_birthdays_in_book_order. reflexivity.
Defined.

(** A window of no days: when [get_upcoming_birthdays] returns, it returns
    nobody. *)
Theorem get_upcoming_birthdays_empty_window
        (today : Datetime.datetime) (days : Z) (book : AddressBook)
        (l : list Record_) :
  days <= 0 ->
  fst (get_upcoming_birthdays today days book) = Ok l ->
  l = [].
Proof.
  intros Hd H. apply get_upcoming_birthdays_Ok, upcoming_loop_filter in H.
  simpl in H. subst l.
  induction (Dict.values (records book)) as [|r rs IH]; [reflexivity|].
  simpl. rewrite IH.
  assert (T : upcoming_test today days r = false); [|now rewrite T].
  unfold upcoming_test. destruct (birthday r) as [b|]; [|reflexivity].
  rewrite is_upcoming_next. destruct (next_birthday today b); [|reflexivity].
  simpl.
  destruct (0 <=? _) eqn:E1; [|reflexivity].
  destruct (_ <? days) eqn:E2; [|reflexivity].
  apply Z.leb_le in E1. apply Z.ltb_lt in E2. lia.
Qed.

Lemma get_upcoming_birthdays_empty_window_witness :
  let bob :=
    mk_Record (Name (u "Bob")) [] (Some (mk_Field (Spec.midnight 10 3 1990))) in
  let book := snd (add_record bob AddressBook_init) in
  fst (get_upcoming_birthdays (Datetime.mk_datetime 2024 3 10 0 0 0 0) 0 book)
  = Ok [].
Proof.
  cbv zeta.
  set (g := get_upcoming_birthdays _ _ _).
  assert (E : exists l, fst g = Ok l) by (eexists; reflexivity).
  destruct (fst g) as [l|e] eqn:F; [|exfalso; destruct E; discriminate].
  f_equal.
  apply (get_upcoming_birthdays_empty_window
           (Datetime.mk_datetime 2024 3 10 0 0 0 0) 0
           (snd (add_record
                   (mk_Record (Name (u "Bob")) []
                      (Some (mk_Field (Spec.midnight 10 3 1990))))
                   AddressBook_init)) l); [lia | exact F].
Defined.

Lemma upcoming_test_mono today d1 d2 r :
  d1 <= d2 ->
  upcoming_test today d1 r = true -> upcoming_test today d2 r = true.
Proof.
  intros Hd. unfold upcoming_test. destruct (birthday r) as [b|]; [|auto].
  rewrite !is_upcoming_next. destruct (next_birthday today b); [|auto].
  simpl. destruct (0 <=? _); [|auto]. simpl.
  destruct (_ <? d1) eqn:E1; [|discriminate]. intros _.
  apply Z.ltb_lt in E1.
  destruct (_ <? d2) eqn:E2; [reflexivity|]. apply Z.ltb_ge in E2. lia.
Qed.

Lemma upcoming_loop_days today d1 d2 rs acc1 acc2 l1 :
  upcoming_loop today d1 rs acc1 = Ok l1 ->
  exists l2, upcoming_loop today d2 rs acc2 = Ok l2.
Proof.
  revert acc1 acc2. induction rs as [|r rs IH]; intros acc1 acc2; simpl.
  - eauto.
  - destruct (birthday r) as [b|]; [|apply IH].
    rewrite !is_upcoming_next.
    destruct (next_birthday today b); simpl; [apply IH | discriminate].
Qed.

Lemma upcoming_loop_raise_days today d1 d2 rs acc1 acc2 e :
  upcoming_loop today d1 rs acc1 = Raise e ->
  upcoming_loop today d2 rs acc2 = Raise e.
Proof.
  revert acc1 acc2. induction rs as [|r rs IH]; intros acc1 acc2; simpl.
  - discriminate.
  - destruct (birthday r) as [b|]; [|apply IH].
    rewrite !is_upcoming_next.
    destruct (next_birthday today b); simpl; [apply IH | auto].
Qed.

(** Whether [get_upcoming_birthdays] returns or raises, and what it
    raises, does not depend on the window; a wider window returns every
    record a narrower one returns. *)
Theorem get_upcoming_birthdays_wider_window
        (today : Datetime.datetime) (d1 d2 : Z) (book : AddressBook) :
  (forall e,
      fst (get_upcoming_birthdays today d1 book) = Raise e
      <-> fst (get_upcoming_birthdays today d2 book) = Raise e)
  /\ ((exists l1, fst (get_upcoming_birthdays today d1 book) = Ok l1)
      <-> (exists l2, fst (get_upcoming_birthdays today d2 book) = Ok l2))
  /\ (d1 <= d2 ->
      forall l1,
        fst (get_upcoming_birthdays today d1 book) = Ok l1 ->
        exists l2,
          fst (get_upcoming_birthdays today d2 book) = Ok l2
          /\ incl l1 l2).
Proof.
  split; [|split].
  - intros e. split; apply upcoming_loop_raise_days.
  - split; intros [l H]; apply get_upcoming_birthdays_Ok in H;
      eapply upcoming_loop_days; eassumption.
  - intros Hd l1 H. apply get_upcoming_birthdays_Ok in H.
    destruct (upcoming_loop_days today d1 d2 _ [] [] l1 H) as [l2 H2].
    exists l2. split; [exact H2|].
    apply upcoming_loop_filter in H, H2. simpl in H, H2. subst.
    intros r Hr. apply filter_In in Hr as [Hin T]. apply filter_In.
    split; [assumption|]. now apply (upcoming_test_mono today d1 d2).
Qed.

(** The theorem at Bob with the windows 7 and 30, and at Eve, born on a 29
    February, with the windows 7 and -1 in a year that is no leap year. *)
Lemma get_upcoming_birthdays_wider_window_witness :
  let bob :=
    mk_Record (Name (u "Bob")) [] (Some (mk_Field (Spec.midnight 15 3 1990))) in
  let eve :=
    mk_Record (Name (u "Eve")) [] (Some (mk_Field (Spec.midnight 29 2 2000))) in
  let today := Datetime.mk_datetime 2023 3 10 9 30 0 0 in
  fst (get_upcoming_birthdays today 7 (snd (add_record bob AddressBook_init)))
  = Ok [bob]
  /\ (exists l2,
         fst (get_upcoming_birthdays today 30
                (snd (add_record bob AddressBook_init))) = Ok l2
         /\ incl [bob] l2)
  /\ fst (get_upcoming_birthdays today 7
            (snd (add_record eve AddressBook_init)))
     = Raise (ValueError "day is out of range for month")
  /\ fst (get_upcoming_birthdays today (-1)
            (snd (add_record eve AddressBook_init)))
     = Raise (ValueError "day is out of range for month").
Proof.
  cbv zeta. split; [reflexivity|]. split; [|split; [reflexivity|]].
  - apply (proj2 (proj2 (get_upcoming_birthdays_wider_window
                           (Datetime.mk_datetime 2023 3 10 9 30 0 0) 7 30
                           (snd (add_record
                                   (mk_Record (Name (u "Bob")) []
                                      (Some (mk_Field
                                               (Spec.midnight 15 3 1990))))
                                   AddressBook_init)))));
      [lia | reflexivity].
  - apply (proj1 (proj1 (get_upcoming_birthdays_wider_window
                           (Datetime.mk_datetime 2023 3 10 9 30 0 0) 7 (-1)
                           (snd (add_record
                                   (mk_Record (Name (u "Eve")) []
                                      (Some (mk_Field
                                               (Spec.midnight 29 2 2000))))
                                   AddressBook_init))) _)).
    reflexivity.
Defined.

Lemma days_before_year_next (y : Z) :
  Datetime.days_before_year (y + 1)
  = Datetime.days_before_year y + 365 + (if Datetime.is_leap y then 1 else 0).
Proof.
  unfold Datetime.days_before_year, Datetime.is_leap.
  repeat match goal with
         | |- context [?a =? ?b] => destruct (Z.eqb_spec a b)
         end; simpl; Z.div_mod_to_equations; lia.
Qed.

(** The day numbers of a year. *)
Lemma year_span (y m d : Z) :
  1 <= m <= 12 -> 1 <= d <= Datetime.days_in_month y m ->
  Datetime.days_before_year y + 1 <= Datetime.ymd2ord y m d
  <= Datetime.days_before_year (y + 1).
Proof.
  intros Hm. rewrite days_before_year_next.
  assert (C : m = 1 \/ m = 2 \/ m = 3 \/ m = 4 \/ m = 5 \/ m = 6 \/ m = 7
              \/ m = 8 \/ m = 9 \/ m = 10 \/ m = 11 \/ m = 12) by lia.
  unfold Datetime.ymd2ord, Datetime.days_before_month, Datetime.days_in_month.
  decompose [or] C; subst; clear C Hm;
    destruct (Datetime.is_leap y); simpl; lia.
Qed.

(** Within a year the months and days compare as the day numbers do. *)
Lemma same_year_compare (y m1 d1 m2 d2 : Z) :
  1 <= m1 <= 12 -> 1 <= m2 <= 12 ->
  1 <= d1 <= Datetime.days_in_month y m1 ->
  1 <= d2 <= Datetime.days_in_month y m2 ->
  match m1 ?= m2 with Eq => d1 ?= d2 | c => c end
  = (Datetime.ymd2ord y m1 d1 ?= Datetime.ymd2ord y m2 d2).
Proof.
  intros M1 M2.
  assert (C1 : m1 = 1 \/ m1 = 2 \/ m1 = 3 \/ m1 = 4 \/ m1 = 5 \/ m1 = 6
               \/ m1 = 7 \/ m1 = 8 \/ m1 = 9 \/ m1 = 10 \/ m1 = 11 \/ m1 = 12)
    by lia.
  assert (C2 : m2 = 1 \/ m2 = 2 \/ m2 = 3 \/ m2 = 4 \/ m2 = 5 \/ m2 = 6
               \/ m2 = 7 \/ m2 = 8 \/ m2 = 9 \/ m2 = 10 \/ m2 = 11 \/ m2 = 12)
    by lia.
  clear M1 M2.
  unfold Datetime.ymd2ord, Datetime.days_before_month, Datetime.days_in_month.
  decompose [or] C1; decompose [or] C2; subst; clear C1 C2;
    destruct (Datetime.is_leap y); simpl; intros D1 D2;
    symmetry;
    first [ apply Z.compare_lt_iff; lia
          | apply Z.compare_gt_iff; lia
          | destruct (Z.compare_spec d1 d2);
            [ apply Z.compare_eq_iff | apply Z.compare_lt_iff
            | apply Z.compare_gt_iff ]; lia ].
Qed.

(** The time of day against midnight. *)
Lemma midnight_compare (hh mm ss us : Z) :
  0 <= hh -> 0 <= mm -> 0 <= ss -> 0 <= us ->
  (Datetime.cmp_fields [0; 0; 0; 0] [hh; mm; ss; us] = Eq
   /\ hh = 0 /\ mm = 0 /\ ss = 0 /\ us = 0)
  \/ (Datetime.cmp_fields [0; 0; 0; 0] [hh; mm; ss; us] = Lt
      /\ 0 < (ss + mm * 60 + hh * 3600) * 1000000 + us).
Proof.
  intros. simpl.
  destruct hh; [|right; split; [reflexivity|lia]|lia].
  destruct mm; [|right; split; [reflexivity|lia]|lia].
  destruct ss; [|right; split; [reflexivity|lia]|lia].
  destruct us; [left; auto|right; split; [reflexivity|lia]|lia].
Qed.

Lemma cmp_fields_date (y m1 d1 m2 d2 : Z) (t1 t2 : list Z) :
  Datetime.cmp_fields (y :: m1 :: d1 :: t1) (y :: m2 :: d2 :: t2)
  = match (match m1 ?= m2 with Eq => d1 ?= d2 | c => c end) with
    | Eq => Datetime.cmp_fields t1 t2
    | c => c
    end.
Proof.
  cbn [Datetime.cmp_fields]. rewrite Z.compare_refl.
  destruct (m1 ?= m2), (d1 ?= d2); reflexivity.
Qed.

(** A birthday at midnight, moved to the year of a valid [today]: where it
    stands against [today]. *)
Lemma this_year_against_today (today : Datetime.datetime) (m1 d1 : Z) :
  Datetime.valid today = true ->
  Datetime.valid (Spec.midnight d1 m1 (Datetime.year today)) = true ->
  let o1 := Datetime.ymd2ord (Datetime.year today) m1 d1 in
  let o2 := Datetime.toordinal today in
  let T := (Datetime.second today + Datetime.minute today * 60
            + Datetime.hour today * 3600) * 1000000
           + Datetime.microsecond today in
  (Datetime.ltb (Spec.midnight d1 m1 (Datetime.year today)) today = true
   /\ (o1 < o2 \/ (o1 = o2 /\ 0 < T)))
  \/ (Datetime.ltb (Spec.midnight d1 m1 (Datetime.year today)) today = false
      /\ (o2 < o1 \/ (o1 = o2 /\ T = 0))).
Proof.
  intros V V1 o1 o2 T.
  pose proof (valid_bounds _ V) as (By & Bm & Bd & _ & Bh & Bmi & Bs & Bu).
  pose proof (valid_bounds _ V1) as (_ & Bm1 & Bd1 & _). simpl in Bm1, Bd1.
  pose proof (same_year_compare (Datetime.year today) m1 d1
                (Datetime.month today) (Datetime.day today) Bm1 Bm Bd1 Bd) as C.
  fold o1 in C. change (Datetime.ymd2ord _ _ _) with o2 in C.
  unfold Datetime.ltb, Spec.midnight, Datetime.fields.
  cbn [Datetime.year Datetime.month Datetime.day Datetime.hour
       Datetime.minute Datetime.second Datetime.microsecond].
  rewrite cmp_fields_date, C.
  destruct (midnight_compare (Datetime.hour today) (Datetime.minute today)
              (Datetime.second today) (Datetime.microsecond today))
    as [(E & Hh & Hm & Hs & Hu) | (E & HT)]; try lia; rewrite E.
  - destruct (Z.compare_spec o1 o2).
    + right. split; [reflexivity|]. right. subst T. rewrite Hh, Hm, Hs, Hu.
      split; [assumption | reflexivity].
    + left. split; [reflexivity | lia].
    + right. split; [reflexivity | lia].
  - destruct (Z.compare_spec o1 o2).
    + left. split; [reflexivity|]. right. split; assumption.
    + left. split; [reflexivity | lia].
    + right. split; [reflexivity | lia].
Qed.

Lemma replace_year_Ok (t : Datetime.datetime) (y : Z) n :
  Datetime.replace_year t y = Ok n ->
  n = Datetime.mk_datetime y (Datetime.month t) (Datetime.day t)
        (Datetime.hour t) (Datetime.minute t) (Datetime.second t)
        (Datetime.microsecond t)
  /\ Datetime.valid n = true.
Proof. apply new_Ok_iff. Qed.

Lemma replace_year_valid (t : Datetime.datetime) (y : Z) :
  Datetime.valid t = true -> 1 <= y <= 9999 ->
  ~ (Datetime.month t = 2 /\ Datetime.day t = 29) ->
  Datetime.replace_year t y
  = Ok (Datetime.mk_datetime y (Datetime.month t) (Datetime.day t)
          (Datetime.hour t) (Datetime.minute t) (Datetime.second t)
          (Datetime.microsecond t)).
Proof.
  intros V Hy N29. apply new_Ok_iff. split; [reflexivity|].
  pose proof (valid_bounds _ V) as (By & Bm & Bd & _ & Bh & Bmi & Bs & Bu).
  assert (Datetime.day t <= Datetime.days_in_month y (Datetime.month t)).
  { revert Bd N29. unfold Datetime.days_in_month.
    destruct (Datetime.month t =? 2) eqn:E2; simpl; [|lia].
    apply Z.eqb_eq in E2. rewrite E2.
    destruct (Datetime.is_leap _), (Datetime.is_leap _); simpl; lia. }
  unfold Datetime.valid, Datetime.between, Datetime.MINYEAR, Datetime.MAXYEAR.
  simpl. rewrite !andb_true_iff, !Z.leb_le. lia.
Qed.

(** The gap of the loop body for a birthday at midnight and a valid
    [today]: from 0 to 365 days. *)
Lemma next_birthday_gap (today : Datetime.datetime)
      (b : Field Datetime.datetime) n :
  Datetime.valid today = true -> at_midnight (value b) ->
  next_birthday today b = Ok n ->
  0 <= Datetime.days (Datetime.sub n today) <= 365.
Proof.
  intros V (Hh & Hmi & Hs & Hu). unfold next_birthday.
  destruct (Datetime.replace_year (value b) _) as [n1|] eqn:R1;
    [|discriminate].
  apply replace_year_Ok in R1 as [-> V1]. rewrite Hh, Hmi, Hs, Hu in *.
  cbn [rbind].
  change (Datetime.mk_datetime ?y ?m ?d 0 0 0 0) with (Spec.midnight d m y)
    in *.
  pose proof (valid_bounds _ V) as (By & Bm & Bd & _ & Bh & Bmi & Bs & Bu).
  pose proof (valid_bounds _ V1) as (_ & Bm1 & Bd1 & _). simpl in Bm1, Bd1.
  pose proof (year_span _ _ _ Bm Bd) as S2.
  pose proof (year_span _ _ _ Bm1 Bd1) as S1.
  destruct (this_year_against_today today _ _ V V1) as [[L O] | [L O]];
    rewrite L.
  - intros R2. apply replace_year_Ok in R2 as [-> V2].
    pose proof (valid_bounds _ V2) as (_ & Bm2 & Bd2 & _).
    simpl in Bm2, Bd2.
    pose proof (year_span _ _ _ Bm2 Bd2) as S3.
    pose proof (ymd2ord_next_year (Datetime.year today)
                  (Datetime.month (value b)) (Datetime.day (value b))) as N.
    unfold Datetime.sub, Datetime.timedelta_new, Datetime.toordinal,
      Spec.midnight in *.
    cbn [Datetime.days Datetime.year Datetime.month Datetime.day
         Datetime.hour Datetime.minute Datetime.second Datetime.microsecond]
      in *.
    Z.div_mod_to_equations. lia.
  - intros [= <-].
    rewrite days_before_year_next in S1, S2.
    unfold Datetime.sub, Datetime.timedelta_new, Datetime.toordinal,
      Spec.midnight in *.
    cbn [Datetime.days Datetime.year Datetime.month Datetime.day
         Datetime.hour Datetime.minute Datetime.second Datetime.microsecond]
      in *.
    destruct (Datetime.is_leap (Datetime.year today));
      Z.div_mod_to_equations; lia.
Qed.

Lemma upcoming_loop_all_Ok today days rs acc l :
  upcoming_loop today days rs acc = Ok l ->
  forall r b, In r rs -> birthday r = Some b ->
              exists n, next_birthday today b = Ok n.
Proof.
  revert acc. induction rs as [|r0 rs IH]; intros acc H r b Hin Hb;
    [contradiction|].
  simpl in H. destruct (birthday r0) as [b0|] eqn:B0.
  - rewrite is_upcoming_next in H.
    destruct (next_birthday today b0) as [n0|] eqn:N0; [|discriminate].
    simpl in H. destruct Hin as [<- | Hin].
    + rewrite B0 in Hb. injection Hb as <-. eauto.
    + eapply IH; eassumption.
  - destruct Hin as [<- | Hin]; [congruence|]. eapply IH; eassumption.
Qed.

(** With a window of 366 days or more, a valid clock reading and the
    birthdays at midnight, [get_upcoming_birthdays] returns, when it
    returns, every record that has a birthday: the gap the loop computes is
    never negative and never more than 365 days. *)
Theorem get_upcoming_birthdays_whole_year
        (today : Datetime.datetime) (days : Z) (book : AddressBook)
        (l : list Record_) :
  Datetime.valid today = true ->
  birthdays_at_midnight book ->
  366 <= days ->
  fst (get_upcoming_birthdays today days book) = Ok l ->
  forall r,
    In r l <->
    In r (Dict.values (records book)) /\ exists b, birthday r = Some b.
Proof.
  intros V M Hd H r. apply get_upcoming_birthdays_Ok in H.
  pose proof (upcoming_loop_all_Ok _ _ _ _ _ H) as A.
  apply upcoming_loop_filter in H. simpl in H. subst l.
  rewrite filter_In. split; intros [Hin T]; (split; [assumption|]).
  - unfold upcoming_test in T. destruct (birthday r); [eauto|discriminate].
  - destruct T as [b Hb]. unfold upcoming_test. rewrite Hb.
    destruct (A r b Hin Hb) as [n N]. rewrite is_upcoming_next, N.
    cbn [rbind]. destruct (M r b Hin Hb) as [_ Mb].
    pose proof (next_birthday_gap today b n V Mb N) as G.
    assert (E1 : (0 <=? Datetime.days (Datetime.sub n today)) = true)
      by (apply Z.leb_le; lia).
    assert (E2 : (Datetime.days (Datetime.sub n today) <? days) = true)
      by (apply Z.ltb_lt; lia).
    now rewrite E1, E2.
Qed.

Lemma get_upcoming_birthdays_whole_year_witness :
  let ann := mk_Record (Name (u "Ann")) [] None in
  let bob :=
    mk_Record (Name (u "Bob")) [] (Some (mk_Field (Spec.midnight 10 3 1990))) in
  let book := snd ((add_record ann ;; add_record bob)%py AddressBook_init) in
  let today := Datetime.mk_datetime 2024 3 10 9 30 0 0 in
  fst (get_upcoming_birthdays today 366 book) = Ok [bob]
  /\ (In bob [bob] <->
      In bob (Dict.values (records book)) /\ exists b, birthday bob = Some b).
Proof.
  cbv zeta. split; [reflexivity|].
  apply (get_upcoming_birthdays_whole_year
           (Datetime.mk_datetime 2024 3 10 9 30 0 0) 366
           (snd ((add_record (mk_Record (Name (u "Ann")) [] None) ;;
                  add_record
                    (mk_Record (Name (u "Bob")) []
                       (Some (mk_Field (Spec.midnight 10 3 1990)))))%py
                   AddressBook_init))).
  - reflexivity.
  - intros r b [<- | [<- | []]]; [discriminate|].
    intros [= <-]. repeat split.
  - lia.
  - reflexivity.
Defined.

Lemma upcoming_loop_returns today days rs acc :
  (forall r b, In r rs -> birthday r = Some b ->
               exists n, next_birthday today b = Ok n) ->
  exists l, upcoming_loop today days rs acc = Ok l.
Proof.
  revert acc. induction rs as [|r rs IH]; intros acc H; simpl; [eauto|].
  destruct (birthday r) as [b|] eqn:B.
  - destruct (H r b (or_introl eq_refl) B) as [n N].
    rewrite is_upcoming_next, N. simpl. apply IH.
    intros r' b' Hin. apply H. now right.
  - apply IH. intros r' b' Hin. apply H. now right.
Qed.

(** [get_upcoming_birthdays] returns a list, whatever the window, when the
    clock reads a valid time before the year 9999 and no birthday of the
    book is a 29 February. *)
Theorem get_upcoming_birthdays_returns
        (today : Datetime.datetime) (days : Z) (book : AddressBook) :
  Datetime.valid today = true ->
  Datetime.year today < 9999 ->
  (forall r b, In r (Dict.values (records book)) -> birthday r = Some b ->
     Datetime.valid (value b) = true
     /\ ~ (Datetime.month (value b) = 2 /\ Datetime.day (value b) = 29)) ->
  exists l, get_upcoming_birthdays today days book = (Ok l, book).
Proof.
  intros V Hy Hb.
  pose proof (valid_bounds _ V) as (By & _).
  destruct (upcoming_loop_returns today days (Dict.values (records book)) [])
    as [l L].
  { intros r b Hin B. destruct (Hb r b Hin B) as [Vb N29].
    unfold next_birthday.
    rewrite (replace_year_valid _ (Datetime.year today) Vb) by (auto; lia).
    cbn [rbind]. destruct (Datetime.ltb _ today); [|eauto].
    set (n1 := Datetime.mk_datetime _ _ _ _ _ _ _).
    assert (Y : 1 <= Datetime.year today <= 9999) by lia.
    assert (V1 : Datetime.valid n1 = true)
      by apply (proj2 (replace_year_Ok (value b) (Datetime.year today) n1
                         (replace_year_valid _ _ Vb Y N29))).
    rewrite (replace_year_valid n1 (Datetime.year today + 1) V1)
      by (auto; lia).
    eauto. }
  exists l. unfold get_upcoming_birthdays, bind, get, lift. now rewrite L.
Qed.

Lemma get_upcoming_birthdays_returns_witness :
  let bob :=
    mk_Record (Name (u "Bob")) [] (Some (mk_Field (Spec.midnight 15 3 1990))) in
  let book := snd (add_record bob AddressBook_init) in
  exists l,
    get_upcoming_birthdays (Datetime.mk_datetime 2024 12 31 23 59 59 0) 7 book
    = (Ok l, book).
Proof.
  cbv zeta. apply get_upcoming_birthdays_returns.
  - reflexivity.
  - reflexivity.
  - intros r b [<- | []] [= <-]. split; [reflexivity|].
    intros [H _]. discriminate H.
Defined.

(** In the year 9999 a birthday whose date of the year is over cannot be
    rolled to the next year: [get_upcoming_birthdays] raises. *)
Theorem get_upcoming_birthdays_in_the_last_year
        (today : Datetime.datetime) (days : Z) (book : AddressBook)
        (record : Record_) (b : Field Datetime.datetime) :
  Datetime.year today = 9999 ->
  In record (Dict.values (records book)) ->
  birthday record = Some b ->
  at_midnight (value b) ->
  Datetime.ltb (Spec.midnight (Datetime.day (value b))
                  (Datetime.month (value b)) 9999) today = true ->
  exists msg,
    get_upcoming_birthdays today days book = (Raise (ValueError msg), book).
Proof.
  intros Hy Hin Hb (Hh & Hmi & Hs & Hu) L.
  assert (U : exists msg, is_upcoming today days b = Raise (ValueError msg)).
  { unfold is_upcoming. rewrite Hy.
    destruct (Datetime.replace_year (value b) 9999) as [n1|e] eqn:R1.
    - apply replace_year_Ok in R1 as [-> _]. rewrite Hh, Hmi, Hs, Hu.
      cbn [rbind]. unfold Spec.midnight in L. rewrite L.
      unfold Datetime.replace_year, Datetime.new. simpl. eauto.
    - destruct (replace_year_raises _ _ _ R1) as [msg ->]. simpl. eauto. }
  destruct U as [msg U].
  destruct (upcoming_loop_raises today days _ [] record b msg Hin Hb U)
    as [msg' R].
  exists msg'. unfold get_upcoming_birthdays, bind, get, lift. now rewrite R.
Qed.

Lemma get_upcoming_birthdays_in_the_last_year_witness :
  let bob :=
    mk_Record (Name (u "Bob")) [] (Some (mk_Field (Spec.midnight 15 3 1990))) in
  let book := snd (add_record bob AddressBook_init) in
  let today := Datetime.mk_datetime 9999 3 20 0 0 0 0 in
  Datetime.valid today = true
  /\ (exists msg,
         get_upcoming_birthdays today 7 book = (Raise (ValueError msg), book))
  /\ fst (get_upcoming_birthdays today 7 book)
     = Raise (ValueError "year 10000 is out of range").
Proof.
  cbv zeta. split; [reflexivity|]. split; [|reflexivity].
  apply (get_upcoming_birthdays_in_the_last_year _ _ _
           (mk_Record (Name (u "Bob")) []
                      (Some (mk_Field (Spec.midnight 15 3 1990))))
           (mk_Field (Spec.midnight 15 3 1990)));
    [reflexivity | left; reflexivity | reflexivity | repeat split
    | reflexivity].
Defined.

(* ================================================================= *)
(** ** The command handlers *)

Lemma AddressBook_eta (book : AddressBook) :
  mk_AddressBook (records book) = book.
Proof. now destruct book. Qed.

Lemma get_In {V} (d : Dict.dict V) k v :
  Dict.get_ d k = Some v -> exists k', k' = k /\ In (k', v) d.
Proof.
  induction d as [|[k0 v0] d IH]; simpl; [discriminate|].
  str_cases k0 k.
  - intros [= ->]. exists k0. auto.
  - intros H. destruct (IH H) as (k' & -> & Hin). eauto.
Qed.

Section HandlerFacts.
Variable repr : str -> str.
Variable int_ : str -> result Z.
Variable year_padded : bool.

(** What [add_contact] returns and does, case by case. *)
Lemma add_contact_eq (args : list str) (book : AddressBook) :
  Handlers.add_contact repr args book
  = match args with
    | name_ :: phone :: _ =>
        if validate phone then
          match Dict.get_ (records book) name_ with
          | Some record =>
              (Ok (u "Phone " ++ phone ++ u " added to contact " ++ name_
                   ++ u "."),
               mk_AddressBook
                 (Dict.setitem (records book) name_
                    (set_phones record (phones record ++ [mk_Field phone]))))
          | None =>
              (Ok (u "Contact " ++ name_ ++ u " with phone " ++ phone
                   ++ u " added."),
               mk_AddressBook
                 (Dict.setitem (records book) name_
                    (mk_Record (Name name_) [mk_Field phone] None)))
          end
        else (Ok (u "Error: Invalid phone number. Must be 10 digits."), book)
    | _ => (Ok (u "Error: " ++ u (not_enough_values 2 (len args))), book)
    end.
Proof.
  unfold Handlers.add_contact, Handlers.input_error, find_record,
    bind, lift, get, ret.
  destruct args as [|name_ [|phone rest]]; try reflexivity.
  cbn [unpack2 fst snd]. cbv beta.
  destruct (Dict.get_ (records book) name_) as [record|] eqn:G.
  - unfold call_on, add_phone, bind, get, lift, put, Phone.
    destruct (validate phone); cbn [negb fst snd records].
    + reflexivity.
    + now rewrite (setitem_same _ _ _ G), AddressBook_eta.
  - unfold Record_init, add_record, bind, get, put. cbn [comprehension rbind].
    unfold Phone. destruct (validate phone); reflexivity.
Qed.

(** What [change_phone] returns and does, case by case. *)
Lemma change_phone_eq (args : list str) (book : AddressBook) :
  Handlers.change_phone repr args book
  = match args with
    | name_ :: old_phone :: new_phone :: _ =>
        match Dict.get_ (records book) name_ with
        | Some record =>
            (Ok (u "Phone " ++ old_phone ++ u " changed to " ++ new_phone
                 ++ u " for contact " ++ name_ ++ u "."),
             mk_AddressBook
               (Dict.setitem (records book) name_
                  (set_phones record
                     (edit_loop old_phone new_phone (phones record)))))
        | None => (Ok (u "Contact " ++ name_ ++ u " not found."), book)
        end
    | _ => (Ok (u "Error: " ++ u (not_enough_values 3 (len args))), book)
    end.
Proof.
  unfold Handlers.change_phone, Handlers.input_error, find_record,
    bind, lift, get, ret.
  destruct args as [|name_ [|old_phone [|new_phone rest]]]; try reflexivity.
  cbn [unpack3 fst snd]. cbv beta.
  destruct (Dict.get_ (records book) name_) as [record|]; reflexivity.
Qed.

(** What the handler [add_birthday] returns and does, case by case. *)
Lemma add_birthday_eq (args : list str) (book : AddressBook) :
  Handlers.add_birthday repr args book
  = match args with
    | name_ :: birthday_ :: _ =>
        match Dict.get_ (records book) name_ with
        | Some record =>
            match Birthday birthday_ with
            | Ok b =>
                (Ok (u "Birthday " ++ birthday_ ++ u " added to contact "
                     ++ name_ ++ u "."),
                 mk_AddressBook
                   (Dict.setitem (records book) name_
                      (set_birthday record (Some b))))
            | Raise e => (Ok (u "Error: " ++ Handlers.str_of_exn repr e), book)
            end
        | None => (Ok (u "Contact " ++ name_ ++ u " not found."), book)
        end
    | _ => (Ok (u "Error: " ++ u (not_enough_values 2 (len args))), book)
    end.
Proof.
  unfold Handlers.add_birthday, Handlers.input_error, find_record,
    bind, lift, get, ret.
  destruct args as [|name_ [|birthday_ rest]]; try reflexivity.
  cbn [unpack2 fst snd]. cbv beta.
  destruct (Dict.get_ (records book) name_) as [record|] eqn:G;
    [|reflexivity].
  unfold call_on, Record_add_birthday, add_birthday, bind, get, lift, put.
  destruct (Birthday birthday_) as [b|e]; cbn [fst snd records].
  - reflexivity.
  - now rewrite (setitem_same _ _ _ G), AddressBook_eta.
Qed.

Lemma show_phones_eq (args : list str) (book : AddressBook) :
  Handlers.show_phones repr args book
  = match args with
    | name_ :: _ =>
        match Dict.get_ (records book) name_ with
        | Some record =>
            (Ok (u "Contact " ++ name_ ++ u ": Phones: "
                 ++ join (u ", ") (map value (phones record))), book)
        | None => (Ok (u "Contact " ++ name_ ++ u " not found."), book)
        end
    | [] => (Ok (u "Error: " ++ u (not_enough_values 1 (len args))), book)
    end.
Proof.
  unfold Handlers.show_phones, Handlers.input_error, find_record,
    bind, lift, get, ret.
  destruct args as [|name_ rest]; [reflexivity|]. cbn [unpack1]. cbv beta.
  destruct (Dict.get_ (records book) name_); reflexivity.
Qed.

Lemma show_birthday_eq (args : list str) (book : AddressBook) :
  Handlers.show_birthday repr year_padded args book
  = match args with
    | name_ :: _ =>
        match Dict.get_ (records book) name_ with
        | Some (mk_Record _ _ (Some b)) =>
            (Ok (u "Contact " ++ name_ ++ u ": Birthday: "
                 ++ Datetime.strftime year_padded (value b)), book)
        | _ => (Ok (u "Contact " ++ name_
                    ++ u " not found or no birthday set."), book)
        end
    | [] => (Ok (u "Error: " ++ u (not_enough_values 1 (len args))), book)
    end.
Proof.
  unfold Handlers.show_birthday, Handlers.input_error,
    find_record, bind, lift, get, ret.
  destruct args as [|name_ rest]; [reflexivity|]. cbn [unpack1]. cbv beta.
  destruct (Dict.get_ (records book) name_) as [[n ps [b|]]|]; reflexivity.
Qed.

End HandlerFacts.

Lemma keyed_found (book : AddressBook) (name_ : str) (record : Record_) :
  keyed_by_name book -> Dict.get_ (records book) name_ = Some record ->
  value (name record) = name_.
Proof.
  intros K G. destruct (get_In _ _ _ G) as (k' & <- & Hin).
  unfold keyed_by_name in K. rewrite Forall_forall in K.
  exact (K _ Hin).
Qed.

Lemma valid_found (book : AddressBook) (name_ : str) (record : Record_) :
  Forall (fun kr => phones_valid (snd kr)) (records book) ->
  Dict.get_ (records book) name_ = Some record -> phones_valid record.
Proof.
  intros F G. destruct (get_In _ _ _ G) as (k' & _ & Hin).
  rewrite Forall_forall in F. exact (F _ Hin).
Qed.

(** The book with one item set keeps what [book_ok] asks for when the
    record set has the name as its name and valid phones. *)
Lemma book_ok_setitem (book : AddressBook) (name_ : str) (record : Record_) :
  book_ok book -> value (name record) = name_ -> phones_valid record ->
  book_ok (mk_AddressBook (Dict.setitem (records book) name_ record)).
Proof.
  intros (W & K & F) Hn Hp. split; [|split]; simpl.
  - now apply wf_setitem.
  - unfold keyed_by_name. simpl. now apply setitem_Forall.
  - now apply setitem_Forall.
Qed.

Lemma values_setitem_new {V} (d : Dict.dict V) k v :
  Dict.get_ d k = None ->
  Dict.values (Dict.setitem d k v) = Dict.values d ++ [v].
Proof.
  induction d as [|[k0 v0] d IH]; simpl; [reflexivity|].
  destruct (str_eqb k0 k); [discriminate|]. intros H. simpl.
  now rewrite IH.
Qed.

Lemma join_snoc (sep : str) (parts : list str) (p : str) :
  join sep (parts ++ [p])
  = match parts with
    | [] => p
    | _ :: _ => join sep parts ++ sep ++ p
    end.
Proof.
  induction parts as [|q parts IH]; [reflexivity|].
  change ((q :: parts) ++ [p]) with (q :: (parts ++ [p])).
  destruct parts as [|q' parts]; [reflexivity|].
  change (join sep (q :: (q' :: parts) ++ [p]))
    with (q ++ sep ++ join sep ((q' :: parts) ++ [p])).
  rewrite IH.
  change (join sep (q :: q' :: parts))
    with (q ++ sep ++ join sep (q' :: parts)).
  now rewrite <- !app_assoc.
Qed.

(** A string of the form DD.MM.YYYY that denotes a real date: what
    [Birthday] stores and how it formats. *)
Lemma Birthday_real_date (s : str) d m y (year_padded : bool) :
  Spec.DDMMYYYY s = Some (d, m, y) -> Spec.real_date d m y = true ->
  1000 <= y \/ year_padded = true ->
  Birthday s = Ok (mk_Field (Spec.midnight d m y))
  /\ Datetime.strftime year_padded (Spec.midnight d m y) = s.
Proof.
  intros H R P. pose proof (strptime_DDMMYYYY s d m y H) as E.
  pose proof R as R'. unfold Spec.real_date in R'.
  apply valid_bounds in R'. simpl in R'.
  assert (N : Datetime.new y m d 0 0 0 0 = Ok (Spec.midnight d m y))
    by (apply new_Ok_iff; split; [reflexivity | exact R]).
  assert (B : Datetime.between 1 d 31 && Datetime.between 1 m 12 = true)
    by (unfold Datetime.between; rewrite !andb_true_iff, !Z.leb_le; lia).
  rewrite B, N in E. split; [now apply Birthday_Ok|].
  destruct (DDMMYYYY_inv s d m y H)
    as (d1 & d2 & m1 & m2 & y1 & y2 & y3 & y4 & Es & Hd & Ed & Em & Ey).
  pose proof Hd as Hall. simpl in Hd. rewrite !andb_true_iff in Hd.
  destruct Hd as (Hd1 & Hd2 & Hm1 & Hm2 & Hy1 & Hy2 & Hy3 & Hy4 & _).
  assert (F : Datetime.strftime true (Spec.midnight d m y) = s).
  { unfold Datetime.strftime, Spec.midnight.
    cbn [Datetime.day Datetime.month Datetime.year].
    rewrite Es, Ed, Em, Ey. rewrite !pad2_digits by assumption.
    rewrite pad4_digits by (simpl; now rewrite Hy1, Hy2, Hy3, Hy4).
    reflexivity. }
  destruct year_padded; [exact F|]. destruct P as [P | P]; [|discriminate].
  rewrite <- F. unfold Datetime.strftime, Spec.midnight.
  cbn [Datetime.day Datetime.month Datetime.year].
  rewrite show_four_digits by lia. reflexivity.
Qed.

Section HandlerTheorems.
Variable repr : str -> str.
Variable int_ : str -> result Z.
Variable year_padded : bool.

(** A handler called with too few arguments returns the text of the
    unpacking error and leaves the book as it is. *)
Theorem handlers_want_their_arguments (args : list str) (book : AddressBook) :
  (len args < 2 ->
   Handlers.add_contact repr args book
   = (Ok (u "Error: " ++ u (not_enough_values 2 (len args))), book)
   /\ Handlers.add_birthday repr args book
      = (Ok (u "Error: " ++ u (not_enough_values 2 (len args))), book))
  /\ (len args < 3 ->
      Handlers.change_phone repr args book
      = (Ok (u "Error: " ++ u (not_enough_values 3 (len args))), book))
  /\ (len args < 1 ->
      Handlers.show_phones repr args book
      = (Ok (u "Error: " ++ u (not_enough_values 1 (len args))), book)
      /\ Handlers.show_birthday repr year_padded args book
         = (Ok (u "Error: " ++ u (not_enough_values 1 (len args))), book)).
Proof.
  rewrite add_contact_eq, add_birthday_eq, change_phone_eq, show_phones_eq,
    show_birthday_eq.
  unfold len. split; [|split]; intros H.
  - destruct args as [|a [|b rest]]; simpl in H; try lia; auto.
  - destruct args as [|a [|b [|c rest]]]; simpl in H; try lia; auto.
  - destruct args as [|a rest]; simpl in H; try lia; auto.
Qed.

(** [add_contact] with a phone that is not valid returns the text of the
    error of [Phone] and leaves the book as it is, whether the contact
    exists or not. *)
Theorem add_contact_refuses_invalid_phone
        (name_ phone : str) (rest : list str) (book : AddressBook) :
  validate phone = false ->
  Handlers.add_contact repr (name_ :: phone :: rest) book
  = (Ok (u "Error: Invalid phone number. Must be 10 digits."), book).
Proof. intros H. now rewrite add_contact_eq, H. Qed.

(** After [add_contact] with a valid phone, [show_phones] of the contact
    lists the phones the contact had, then the new one; every other
    contact is found as before. *)
Theorem add_contact_then_show_phones
        (name_ phone : str) (rest : list str) (book : AddressBook) :
  validate phone = true ->
  Handlers.show_phones repr [name_]
    (snd (Handlers.add_contact repr (name_ :: phone :: rest) book))
  = (Ok (u "Contact " ++ name_ ++ u ": Phones: "
         ++ join (u ", ")
              (match Dict.get_ (records book) name_ with
               | Some record => map value (phones record)
               | None => []
               end ++ [phone])),
     snd (Handlers.add_contact repr (name_ :: phone :: rest) book))
  /\ forall k, k <> name_ ->
       fst (find_record k
              (snd (Handlers.add_contact repr (name_ :: phone :: rest) book)))
       = fst (find_record k book).
Proof.
  intros H. rewrite add_contact_eq, H, show_phones_eq.
  destruct (Dict.get_ (records book) name_) as [record|]; cbn [snd records];
    rewrite get_setitem_same; cbn [phones set_phones]; split.
  - now rewrite map_app.
  - intros k Hk. simpl. now rewrite get_setitem_other.
  - reflexivity.
  - intros k Hk. simpl. now rewrite get_setitem_other.
Qed.

(** [add_contact] and the handler [add_birthday] keep the book in order
    (no name twice, every record under its own name, every phone valid),
    whatever the arguments; [change_phone] does when the new phone is
    valid. *)
Theorem handlers_keep_the_book_in_order
        (args : list str) (book : AddressBook) :
  book_ok book ->
  book_ok (snd (Handlers.add_contact repr args book))
  /\ book_ok (snd (Handlers.add_birthday repr args book))
  /\ (match args with
      | _ :: _ :: new_phone :: _ => validate new_phone = true
      | _ => True
      end ->
      book_ok (snd (Handlers.change_phone repr args book))).
Proof.
  intros OK. pose proof OK as (W & K & F).
  rewrite add_contact_eq, add_birthday_eq, change_phone_eq.
  split; [|split].
  - destruct args as [|name_ [|phone rest]]; try exact OK.
    destruct (validate phone) eqn:Vp; [|exact OK].
    destruct (Dict.get_ (records book) name_) as [record|] eqn:G;
      cbn [snd]; apply book_ok_setitem; auto.
    + simpl. exact (keyed_found _ _ _ K G).
    + unfold phones_valid. simpl. apply Forall_app. split.
      * exact (valid_found _ _ _ F G).
      * constructor; [exact Vp | constructor].
    + unfold phones_valid. simpl. constructor; [exact Vp | constructor].
  - destruct args as [|name_ [|birthday_ rest]]; try exact OK.
    destruct (Dict.get_ (records book) name_) as [record|] eqn:G;
      [|exact OK].
    destruct (Birthday birthday_) as [b|e]; [|exact OK].
    cbn [snd]. apply book_ok_setitem; auto.
    + simpl. exact (keyed_found _ _ _ K G).
    + simpl. exact (valid_found _ _ _ F G).
  - destruct args as [|name_ [|old_phone [|new_phone rest]]]; try (intros; exact OK).
    intros Vn.
    destruct (Dict.get_ (records book) name_) as [record|] eqn:G;
      [|exact OK].
    cbn [snd]. apply book_ok_setitem; auto.
    + simpl. exact (keyed_found _ _ _ K G).
    + unfold phones_valid. simpl. apply edit_loop_valid; [exact Vn|].
      exact (valid_found _ _ _ F G).
Qed.

(** [change_phone] for a contact that has no phone of the old value says
    that the phone was changed, and changes nothing. *)
Theorem change_phone_reports_a_change_anyway
        (name_ old_phone new_phone : str) (rest : list str)
        (book : AddressBook) (record : Record_) :
  Dict.get_ (records book) name_ = Some record ->
  (forall p, In p (phones record) -> value p <> old_phone) ->
  Handlers.change_phone repr (name_ :: old_phone :: new_phone :: rest) book
  = (Ok (u "Phone " ++ old_phone ++ u " changed to " ++ new_phone
         ++ u " for contact " ++ name_ ++ u "."), book).
Proof.
  intros G H. rewrite change_phone_eq, G.
  rewrite edit_loop_absent by assumption.
  unfold set_phones. rewrite Record_eta.
  now rewrite (setitem_same _ _ _ G), AddressBook_eta.
Qed.

(** [show_phones], [show_all_contacts], [show_birthday] and [birthdays]
    leave the book as it is, whatever the arguments and the clock. *)
Theorem show_handlers_leave_the_book
        (args : list str) (book : AddressBook) (today : Datetime.datetime) :
  snd (Handlers.show_phones repr args book) = book
  /\ snd (Handlers.show_all_contacts repr year_padded args book) = book
  /\ snd (Handlers.show_birthday repr year_padded args book) = book
  /\ snd (Handlers.birthdays repr int_ year_padded today args book) = book.
Proof.
  rewrite show_phones_eq, show_birthday_eq. split; [|split; [|split]].
  - destruct args as [|a rest]; [reflexivity|].
    now destruct (Dict.get_ (records book) a).
  - reflexivity.
  - destruct args as [|a rest]; [reflexivity|].
    now destruct (Dict.get_ (records book) a) as [[n ps [b|]]|].
  - unfold Handlers.birthdays, Handlers.input_error, get_upcoming_birthdays,
      bind, lift, get, ret.
    destruct (match args with [] => Ok 7 | a :: _ => int_ a end) as [days|e];
      [|reflexivity].
    destruct (upcoming_loop today days _ []) as [[|r l]|e]; reflexivity.
Qed.

(** For a contact of the book and a string of the form DD.MM.YYYY that
    denotes a real date, the handler [add_birthday] says so and
    [show_birthday] then shows the string (for a year below 1000 only where
    [%Y] pads the year). *)
Theorem add_birthday_then_show_birthday
        (name_ s : str) (rest : list str) (book : AddressBook)
        (record : Record_) d m y :
  Dict.get_ (records book) name_ = Some record ->
  Spec.DDMMYYYY s = Some (d, m, y) -> Spec.real_date d m y = true ->
  1000 <= y \/ year_padded = true ->
  fst (Handlers.add_birthday repr (name_ :: s :: rest) book)
  = Ok (u "Birthday " ++ s ++ u " added to contact " ++ name_ ++ u ".")
  /\ fst (Handlers.show_birthday repr year_padded [name_]
            (snd (Handlers.add_birthday repr (name_ :: s :: rest) book)))
     = Ok (u "Contact " ++ name_ ++ u ": Birthday: " ++ s).
Proof.
  intros G H R P.
  destruct (Birthday_real_date s d m y year_padded H R P) as [B F].
  rewrite add_birthday_eq, G, B, show_birthday_eq. cbn [fst snd records].
  rewrite get_setitem_same. unfold set_birthday. cbn [fst value].
  now rewrite F.
Qed.

(** The handler [add_birthday] with a string [Birthday] refuses: for a
    contact of the book it returns the text of the error and leaves the
    book as it is; for a name the book does not hold the string is not
    looked at. *)
Theorem add_birthday_refuses_bad_date
        (name_ s : str) (rest : list str) (book : AddressBook) e :
  Birthday s = Raise e ->
  Handlers.add_birthday repr (name_ :: s :: rest) book
  = (Ok (match Dict.get_ (records book) name_ with
         | Some _ => u "Error: Invalid date format. Use DD.MM.YYYY"
         | None => u "Contact " ++ name_ ++ u " not found."
         end), book).
Proof.
  intros B. rewrite add_birthday_eq, B.
  apply Birthday_raises in B as [_ ->].
  now destruct (Dict.get_ (records book) name_).
Qed.

(** With a contact born on 29 February in the book and the clock in a year
    that is not a leap year, [birthdays] returns the text of an error,
    whatever window it is given. *)
Theorem birthdays_29_February
        (today : Datetime.datetime) (args : list str) (book : AddressBook)
        (record : Record_) (b : Field Datetime.datetime) (days : Z) :
  match args with [] => Ok 7 | a :: _ => int_ a end = Ok days ->
  In record (Dict.values (records book)) ->
  birthday record = Some b ->
  Datetime.month (value b) = 2 -> Datetime.day (value b) = 29 ->
  Datetime.is_leap (Datetime.year today) = false ->
  exists msg,
    Handlers.birthdays repr int_ year_padded today args book
    = (Ok (u "Error: " ++ u msg), book).
Proof.
  intros A Hin Hb Hm Hd Hl.
  destruct (replace_year_29_February (value b) _ Hm Hd Hl) as [msg R].
  assert (U : is_upcoming today days b = Raise (ValueError msg))
    by (unfold is_upcoming; now rewrite R).
  destruct (upcoming_loop_raises today days _ [] record b msg Hin Hb U)
    as [msg' L].
  exists msg'.
  unfold Handlers.birthdays, Handlers.input_error, get_upcoming_birthdays,
    bind, lift, get, ret.
  now rewrite A, L.
Qed.

(** After [add_contact] of a new name with a valid phone,
    [show_all_contacts] shows what it showed before and, on a line of its
    own at the end, the new contact with its phone and no birthday. *)
Theorem add_contact_then_show_all_contacts
        (name_ phone : str) (rest args : list str) (book : AddressBook) :
  validate phone = true ->
  Dict.get_ (records book) name_ = None ->
  fst (Handlers.show_all_contacts repr year_padded args
         (snd (Handlers.add_contact repr (name_ :: phone :: rest) book)))
  = Ok (match records book with
        | [] => []
        | _ :: _ =>
            match fst (Handlers.show_all_contacts repr year_padded args book)
            with
            | Ok old => old ++ [10%N]
            | Raise _ => []
            end
        end
        ++ u "Name: " ++ name_ ++ u ", Phones: " ++ phone
        ++ u ", Birthday: No birthday").
Proof.
  intros Vp G. rewrite add_contact_eq, Vp, G. cbn [snd].
  unfold Handlers.show_all_contacts, Handlers.input_error, list_records,
    bind, get, ret. cbn [fst records].
  rewrite values_setitem_new by assumption.
  rewrite map_app.
  change (map (Handlers.contact_line year_padded) [?r])
    with [Handlers.contact_line year_padded r].
  rewrite join_snoc. f_equal.
  destruct (records book) as [|kr d]; [reflexivity|].
  cbn [Dict.values map]. now rewrite <- app_assoc.
Qed.

End HandlerTheorems.

(** The theorems above at books of one or two contacts; [repr] is taken to
    be the identity, which no handler gets to use. *)

Lemma add_contact_refuses_invalid_phone_witness :
  Handlers.add_contact (fun s => s) [u "Bob"; u "12345"] AddressBook_init
  = (Ok (u "Error: Invalid phone number. Must be 10 digits."),
     AddressBook_init).
Proof. apply add_contact_refuses_invalid_phone. reflexivity. Defined.

Lemma add_contact_then_show_phones_witness :
  let book :=
    snd (Handlers.add_contact (fun s => s) [u "Bob"; u "0501234567"]
           AddressBook_init) in
  fst (Handlers.show_phones (fun s => s) [u "Bob"]
         (snd (Handlers.add_contact (fun s => s) [u "Bob"; u "0677654321"]
                 book)))
  = Ok (u "Contact Bob: Phones: 0501234567, 0677654321").
Proof.
  cbv zeta.
  destruct (add_contact_then_show_phones (fun s => s) (u "Bob")
              (u "0677654321") []
              (snd (Handlers.add_contact (fun s => s)
                      [u "Bob"; u "0501234567"] AddressBook_init))
              eq_refl) as [H _].
  rewrite H. reflexivity.
Defined.

Lemma handlers_keep_the_book_in_order_witness :
  book_ok AddressBook_init
  /\ book_ok (snd (Handlers.add_contact (fun s => s)
                     [u "Bob"; u "0501234567"] AddressBook_init)).
Proof.
  assert (OK : book_ok AddressBook_init)
    by (split; [constructor | split; constructor]).
  split; [exact OK|].
  exact (proj1 (handlers_keep_the_book_in_order (fun s => s)
                  [u "Bob"; u "0501234567"] AddressBook_init OK)).
Defined.

Lemma change_phone_reports_a_change_anyway_witness :
  let bob := mk_Record (Name (u "Bob")) [mk_Field (u "0501234567")] None in
  let book := snd (add_record bob AddressBook_init) in
  Handlers.change_phone (fun s => s)
    [u "Bob"; u "0677654321"; u "0990000000"] book
  = (Ok (u "Phone 0677654321 changed to 0990000000 for contact Bob."), book).
Proof.
  cbv zeta.
  apply (change_phone_reports_a_change_anyway (fun s => s) (u "Bob")
           (u "0677654321") (u "0990000000") [] _
           (mk_Record (Name (u "Bob")) [mk_Field (u "0501234567")] None)).
  - reflexivity.
  - intros p [<- | []]. simpl. discriminate.
Defined.

Lemma add_birthday_then_show_birthday_witness :
  let bob := mk_Record (Name (u "Bob")) [mk_Field (u "0501234567")] None in
  let book := snd (add_record bob AddressBook_init) in
  fst (Handlers.show_birthday (fun s => s) false [u "Bob"]
         (snd (Handlers.add_birthday (fun s => s)
                 [u "Bob"; u "15.03.1990"] book)))
  = Ok (u "Contact Bob: Birthday: 15.03.1990").
Proof.
  cbv zeta.
  apply (add_birthday_then_show_birthday (fun s => s) false (u "Bob")
           (u "15.03.1990") [] _
           (mk_Record (Name (u "Bob")) [mk_Field (u "0501234567")] None)
           15 3 1990);
    [reflexivity | reflexivity | reflexivity | left; lia].
Defined.

Lemma add_birthday_refuses_bad_date_witness :
  let bob := mk_Record (Name (u "Bob")) [mk_Field (u "0501234567")] None in
  let book := snd (add_record bob AddressBook_init) in
  Handlers.add_birthday (fun s => s) [u "Bob"; u "31.02.2024"] book
  = (Ok (u "Error: Invalid date format. Use DD.MM.YYYY"), book).
Proof.
  cbv zeta.
  rewrite (add_birthday_refuses_bad_date (fun s => s) (u "Bob")
             (u "31.02.2024") []
             (snd (add_record
                     (mk_Record (Name (u "Bob")) [mk_Field (u "0501234567")]
                                None) AddressBook_init))
             (ValueError "Invalid date format. Use DD.MM.YYYY") eq_refl).
  reflexivity.
Defined.

Lemma birthdays_29_February_witness :
  let eve :=
    mk_Record (Name (u "Eve")) [] (Some (mk_Field (Spec.midnight 29 2 2000))) in
  let book := snd (add_record eve AddressBook_init) in
  let today := Datetime.mk_datetime 2023 3 10 12 0 0 0 in
  (exists msg,
      Handlers.birthdays (fun s => s) (fun _ => Ok 30) true today [] book
      = (Ok (u "Error: " ++ u msg), book))
  /\ fst (Handlers.birthdays (fun s => s) (fun _ => Ok 30) true today [] book)
     = Ok (u "Error: day is out of range for month").
Proof.
  cbv zeta. split; [|reflexivity].
  apply (birthdays_29_February (fun s => s) (fun _ => Ok 30) true _ [] _
           (mk_Record (Name (u "Eve")) []
                      (Some (mk_Field (Spec.midnight 29 2 2000))))
           (mk_Field (Spec.midnight 29 2 2000)) 7);
    [reflexivity | left; reflexivity | reflexivity ..].
Defined.

Lemma add_contact_then_show_all_contacts_witness :
  let book :=
    snd (Handlers.add_contact (fun s => s) [u "Ann"; u "0501234567"]
           AddressBook_init) in
  fst (Handlers.show_all_contacts (fun s => s) true []
         (snd (Handlers.add_contact (fun s => s) [u "Bob"; u "0677654321"]
                 book)))
  = Ok (u "Name: Ann, Phones: 0501234567, Birthday: No birthday" ++ [10%N]
        ++ u "Name: Bob, Phones: 0677654321, Birthday: No birthday").
Proof.
  cbv zeta.
  rewrite (add_contact_then_show_all_contacts (fun s => s) true (u "Bob")
             (u "0677654321") [] []
             (snd (Handlers.add_contact (fun s => s)
                     [u "Ann"; u "0501234567"] AddressBook_init))
             eq_refl eq_refl).
  reflexivity.
Defined.

(* ================================================================= *)
(** ** More on Birthday *)

(** Whatever string [Birthday] accepted, the padded formatting of the
    stored date is accepted as well and stores the same date; so is the
    unpadded one from the year 1000. *)
Theorem Birthday_of_its_format (s : str) (b : Field Datetime.datetime) :
  Birthday s = Ok b ->
  Birthday (Datetime.strftime true (value b)) = Ok b
  /\ (1000 <= Datetime.year (value b) ->
      Birthday (Datetime.strftime false (value b)) = Ok b).
Proof.
  intros H. apply Birthday_Ok in H.
  destruct (strptime_Ok s _ H) as (V & Hh & Hm & Hs & Hu).
  destruct b as [[y m d hh mm ss us]].
  cbn [value Datetime.hour Datetime.minute Datetime.second
       Datetime.microsecond Datetime.year] in *.
  subst hh mm ss us.
  pose proof (strftime_DDMMYYYY _ V) as D.
  cbn [Datetime.day Datetime.month Datetime.year] in D.
  assert (R : Spec.real_date d m y = true) by exact V.
  destruct (Birthday_real_date _ d m y true D R (or_intror eq_refl))
    as [B _].
  split; [exact B|]. intros Hy.
  assert (E : Datetime.strftime false (Datetime.mk_datetime y m d 0 0 0 0)
              = Datetime.strftime true (Datetime.mk_datetime y m d 0 0 0 0)).
  { unfold Datetime.strftime. simpl.
    pose proof (valid_bounds _ V) as (By & _). simpl in By.
    now rewrite show_four_digits by lia. }
  rewrite E. exact B.
Qed.

Lemma Birthday_of_its_format_witness :
  Birthday (u "1.1.2024") = Ok (mk_Field (Spec.midnight 1 1 2024))
  /\ Datetime.strftime true (Spec.midnight 1 1 2024) = u "01.01.2024"
  /\ Birthday (u "01.01.2024") = Ok (mk_Field (Spec.midnight 1 1 2024)).
Proof.
  split; [reflexivity|]. split; [reflexivity|].
  exact (proj1 (Birthday_of_its_format (u "1.1.2024")
                  (mk_Field (Spec.midnight 1 1 2024)) eq_refl)).
Defined.
